(** * NotificationService: a shallow embedding and its properties

    The embedded program is the [NotificationService] singleton of the
    pet-sitting application: a notification list kept in AsyncStorage under
    the key ['notifications'], a debounced remote fetch, an identity and role
    filter, and a list of subscribed listeners.

    The asynchronous methods are embedded as computations over an explicit
    [World] in a state-and-exception monad: effects performed before an
    exception is raised survive it, as they do in JavaScript.  The three
    collaborators (AsyncStorage, [makeApiCall], [authService]) and the clock
    are an [Env] of oracles indexed by the number of collaborator
    interactions made so far, so that every behaviour of the collaborators,
    including one that changes between two calls, is an [Env].

    Two things are recorded rather than executed: the requests handed to
    [makeApiCall] and the calls made to the listeners.  Listeners are taken
    to return normally, and one operation runs at a time: the interleaving
    of two pending asynchronous operations is outside this model. *)

From Stdlib Require Import String Ascii List ZArith Bool Lia Arith.
From Stdlib Require Import DecimalString DecimalZ.
Import ListNotations.

Local Open Scope string_scope.
Local Open Scope list_scope.
Local Open Scope Z_scope.

(** ** JavaScript helpers *)

(** Truthiness of an optional string: [undefined], [null] and [''] are falsy. *)
Definition truthy (o : option string) : bool :=
  match o with
  | Some s => negb (s =? "")%string
  | None => false
  end.

(** [a || b] on an optional string with a string default. *)
Definition orElse (o : option string) (d : string) : string :=
  match o with
  | Some s => if (s =? "")%string then d else s
  | None => d
  end.

(** [s.includes(sub)]: [sub] occurs in [s] as a contiguous substring. *)
Fixpoint includes (s sub : string) : bool :=
  String.prefix sub s ||
  match s with
  | EmptyString => false
  | String _ s' => includes s' sub
  end.

(** [n.toString()] for an integral number: its decimal rendering. *)
Definition toString (n : Z) : string :=
  NilEmpty.string_of_int (Z.to_int n).

(** ** Data model *)

(** The [type] field.  The interface declares
    ['booking' | 'message' | 'review' | 'system'], but nothing checks it at
    run time: a record converted from the remote feed, or read back from
    the store, keeps whatever string it came with.  So the field is a
    string, and the four declared values are named. *)
Definition NotificationType := string.

Definition booking : NotificationType := "booking".
Definition message : NotificationType := "message".
Definition review : NotificationType := "review".
Definition system : NotificationType := "system".

(** [a === b] on two type strings. *)
Definition NotificationType_eqb (a b : NotificationType) : bool :=
  (a =? b)%string.

(** The free-form [data] payload, as a flat object with string-valued and
    numeric fields; only [data.status] is ever inspected by the service. *)
Inductive JValue := JStr (s : string) | JNum (z : Z) | JBool (b : bool).

Definition Payload := list (string * JValue).

Fixpoint field (k : string) (o : Payload) : option JValue :=
  match o with
  | [] => None
  | (k', v) :: o' => if (k' =? k)%string then Some v else field k o'
  end.

(** [data?.status === v] *)
Definition statusIs (data : option Payload) (v : string) : bool :=
  match data with
  | Some o =>
      match field "status" o with
      | Some (JStr s) => (s =? v)%string
      | _ => false
      end
  | None => false
  end.

Module Notification.
Record t := mk {
  id : string;
  type : NotificationType;
  title : string;
  message : string;
  time : string;
  isRead : bool;
  avatar : option string;
  action : option string;
  data : option Payload;
  userId : option string
}.

(** [{ ...n, isRead: true }] *)
Definition read (n : t) : t :=
  mk (id n) (type n) (title n) (message n) (time n) true
     (avatar n) (action n) (data n) (userId n).
End Notification.

(** [Omit<Notification, 'id' | 'time' | 'isRead'>], the argument of the
    append operations. *)
Module Draft.
Record t := mk {
  type : NotificationType;
  title : string;
  message : string;
  avatar : option string;
  action : option string;
  data : option Payload;
  userId : option string
}.
End Draft.

(** Modelled from the spec: the record returned by the identity
    collaborator's [getCurrentUser] ([authService] is not among the
    sources): [{ id, token?, userType|role }]. *)
Module User.
Record t := mk {
  id : string;
  token : option string;
  userType : option string;
  role : option string
}.
End User.

(** An element of the remote feed, before conversion.  [id] is a number or
    a string and may be missing, in which case [apiNotif.id.toString()]
    raises. *)
Inductive ApiId := IdNum (z : Z) | IdStr (s : string).

Module ApiNotif.
Record t := mk {
  id : option ApiId;
  type : option NotificationType;
  title : option string;
  message : option string;
  created_at : string;
  read_at : option string;
  data : option Payload
}.
End ApiNotif.

(** Modelled from the spec: what [makeApiCall] ([networkService] is not
    among the sources) resolves to.  [Rejected] is a transport failure;
    [Responded ok body] carries [response.ok] and the parsed body, [None]
    when [response.json()] rejects. *)
Record Body := mkBody {
  success : bool;
  notifications : option (list ApiNotif.t)
}.

Inductive Response :=
| Rejected
| Responded (ok : bool) (body : option Body).

(** The requests the service sends, with their bearer token. *)
Inductive Request :=
| GetNotifications (token : string)
| PutRead (notificationId token : string)
| PutAllRead (token : string).

(** What AsyncStorage holds under ['notifications']: a serialized list of
    notification records, which is all the service ever writes, or text
    that [JSON.parse] rejects.  Text that parses to anything else (['null'],
    an object, a list of other things) is outside the model: the properties
    below speak of stores in one of these two states or with the key
    absent. *)
Inductive Stored :=
| Json (l : list Notification.t)
| Malformed.

Inductive Error :=
| StorageError
| SyntaxError
| TypeError
| NetworkError
| AuthError.

Inductive Outcome (A : Type) :=
| Ok (a : A)
| Throw (e : Error).
Arguments Ok {A} a.
Arguments Throw {A} e.

(** A listener is a function reference; [l !== listener] compares
    references, so a listener is modelled by its identity. *)
Definition Listener := nat.

(** ** The world and the collaborators *)

Record World := mkWorld {
  listeners : list Listener;           (* this.listeners *)
  lastApiCallTime : Z;                 (* this.lastApiCallTime *)
  storage : option Stored;             (* AsyncStorage, key 'notifications' *)
  requests : list Request;             (* requests sent so far, oldest first *)
  delivered : list (Listener * list Notification.t);
                                       (* listener invocations, oldest first *)
  tick : nat                           (* collaborator interactions so far *)
}.

Record Env := mkEnv {
  dateNow : nat -> Z;                          (* Date.now() *)
  localeString : nat -> string;                (* new Date().toLocaleString() *)
  authUser : nat -> Outcome (option User.t);   (* authService.getCurrentUser() *)
  apiResponse : nat -> Response;               (* makeApiCall(...) *)
  getItemFails : nat -> bool;                  (* AsyncStorage.getItem rejects *)
  setItemFails : nat -> bool;                  (* AsyncStorage.setItem rejects *)
  removeItemFails : nat -> bool                (* AsyncStorage.removeItem rejects *)
}.

Definition apiCallDebounceMs : Z := 3000.

Definition initial : World := mkWorld [] 0 None [] [] 0.

(** The canonical list: what a successful read of the store parses to. *)
Definition canonical (w : World) : list Notification.t :=
  match storage w with
  | Some (Json l) => l
  | _ => []
  end.

(** ** The monad *)

Definition M (A : Type) : Type := World -> Outcome A * World.

Definition ret {A} (a : A) : M A := fun w => (Ok a, w).

Definition throw {A} (e : Error) : M A := fun w => (Throw e, w).

Definition bind {A B} (m : M A) (k : A -> M B) : M B :=
  fun w =>
    match m w with
    | (Ok a, w') => k a w'
    | (Throw e, w') => (Throw e, w')
    end.

(** [try { m } catch (error) { h error }] *)
Definition try_catch {A} (m : M A) (h : Error -> M A) : M A :=
  fun w =>
    match m w with
    | (Ok a, w') => (Ok a, w')
    | (Throw e, w') => h e w'
    end.

Declare Scope js_scope.
Delimit Scope js_scope with js.
Notation "x <- m ;; k" := (bind m (fun x => k))
  (at level 61, m at next level, right associativity) : js_scope.
Notation "m ;;; k" := (bind m (fun _ => k))
  (at level 61, right associativity) : js_scope.
Local Open Scope js_scope.

Definition bump (w : World) : World :=
  mkWorld (listeners w) (lastApiCallTime w) (storage w) (requests w)
          (delivered w) (S (tick w)).

Definition with_listeners (ls : list Listener) (w : World) : World :=
  mkWorld ls (lastApiCallTime w) (storage w) (requests w) (delivered w) (tick w).

Definition with_last (t : Z) (w : World) : World :=
  mkWorld (listeners w) t (storage w) (requests w) (delivered w) (tick w).

Definition with_storage (s : option Stored) (w : World) : World :=
  mkWorld (listeners w) (lastApiCallTime w) s (requests w) (delivered w) (tick w).

Definition with_request (r : Request) (w : World) : World :=
  mkWorld (listeners w) (lastApiCallTime w) (storage w) (requests w ++ [r])
          (delivered w) (tick w).

Definition with_delivered (d : list (Listener * list Notification.t)) (w : World) : World :=
  mkWorld (listeners w) (lastApiCallTime w) (storage w) (requests w) d (tick w).

(** ** Arguments of the notification builders *)

(** [bookingData] of [createBookingNotification].  The hourly rate is a
    JavaScript number; the model covers the integral ones. *)
Module BookingRequest.
Record t := mk {
  sitterId : string;
  sitterName : string;
  petOwnerId : string;
  petOwnerName : string;
  bookingId : string;
  date : string;
  startTime : string;
  endTime : string;
  hourlyRate : Z
}.
End BookingRequest.

(** The [status] of a booking decision: ['confirmed' | 'cancelled']. *)
Inductive BookingStatus := StatusConfirmed | StatusCancelled.

(** [bookingData] of [createBookingConfirmationNotification]. *)
Module BookingDecision.
Record t := mk {
  sitterId : string;
  sitterName : string;
  petOwnerId : string;
  petOwnerName : string;
  bookingId : string;
  date : string;
  startTime : string;
  endTime : string;
  status : BookingStatus
}.
End BookingDecision.

(** [messageData] of [createMessageNotification]. *)
Module MessageData.
Record t := mk {
  senderId : string;
  senderName : string;
  message : string;
  isBookingRelated : option bool
}.
End MessageData.

(** [c.toUpperCase()] on one ASCII code unit. *)
Definition toUpperCase (c : ascii) : ascii :=
  let n := nat_of_ascii c in
  if (97 <=? n)%nat && (n <=? 122)%nat then ascii_of_nat (n - 32) else c.

(** [s.charAt(0).toUpperCase() + s.slice(1)] *)
Definition capitalize (s : string) : string :=
  match s with
  | EmptyString => EmptyString
  | String c s' => String (toUpperCase c) s'
  end.

(** ** The service *)

Section Service.

Variable E : Env.

(** *** Collaborator calls *)

Definition getDateNow : M Z :=
  fun w => (Ok (dateNow E (tick w)), bump w).

Definition toLocaleString : M string :=
  fun w => (Ok (localeString E (tick w)), bump w).

Definition getCurrentUser : M (option User.t) :=
  fun w => (authUser E (tick w), bump w).

(** [await makeApiCall(path, options)]: the request leaves, then the call
    resolves to a response or rejects. *)
Definition makeApiCall (r : Request) : M (bool * option Body) :=
  fun w =>
    let w' := with_request r (bump w) in
    match apiResponse E (tick w) with
    | Rejected => (Throw NetworkError, w')
    | Responded ok body => (Ok (ok, body), w')
    end.

(** [await response.json()] *)
Definition json (body : option Body) : M Body :=
  match body with
  | Some b => ret b
  | None => throw SyntaxError
  end.

Definition getItem : M (option Stored) :=
  fun w =>
    if getItemFails E (tick w) then (Throw StorageError, bump w)
    else (Ok (storage w), bump w).

(** [AsyncStorage.setItem('notifications', JSON.stringify(l))] *)
Definition setItem (l : list Notification.t) : M unit :=
  fun w =>
    if setItemFails E (tick w) then (Throw StorageError, bump w)
    else (Ok tt, with_storage (Some (Json l)) (bump w)).

Definition removeItem : M unit :=
  fun w =>
    if removeItemFails E (tick w) then (Throw StorageError, bump w)
    else (Ok tt, with_storage None (bump w)).

(** [stored ? JSON.parse(stored) : []] *)
Definition parseStored (stored : option Stored) : M (list Notification.t) :=
  match stored with
  | None => ret []
  | Some (Json l) => ret l
  | Some Malformed => throw SyntaxError
  end.

(** *** Subscriptions *)

Definition unsubscribe (listener : Listener) : M unit :=
  fun w =>
    (Ok tt,
     with_listeners
       (filter (fun l => negb (Nat.eqb l listener)) (listeners w)) w).

(** [subscribe] pushes the listener and returns the removing closure. *)
Definition subscribe (listener : Listener) : M (M unit) :=
  fun w =>
    (Ok (unsubscribe listener),
     with_listeners (listeners w ++ [listener]) w).

(** [this.listeners.forEach(listener => listener(notifications))] *)
Definition notifyListeners (ns : list Notification.t) : M unit :=
  fun w =>
    (Ok tt,
     with_delivered
       (delivered w ++ map (fun l => (l, ns)) (listeners w)) w).

(** *** The identity and role filter *)

Definition fieldIs (o : option string) (v : string) : bool :=
  match o with
  | Some s => (s =? v)%string
  | None => false
  end.

Definition isPetSitter (u : User.t) : bool :=
  fieldIs (User.userType u) "pet_sitter" || fieldIs (User.role u) "pet_sitter".

Definition isBookingWithStatus (n : Notification.t) : bool :=
  NotificationType_eqb (Notification.type n) booking &&
  (statusIs (Notification.data n) "confirmed" ||
   statusIs (Notification.data n) "cancelled" ||
   includes (Notification.title n) "confirmed" ||
   includes (Notification.title n) "cancelled").

Definition isMessageOrSystem (n : Notification.t) : bool :=
  NotificationType_eqb (Notification.type n) message ||
  NotificationType_eqb (Notification.type n) system.

(** The predicate passed to [notifications.filter]. *)
Definition visible (u : User.t) (n : Notification.t) : bool :=
  if truthy (Notification.userId n) then
    fieldIs (Notification.userId n) (User.id u)
  else if isPetSitter u then
    NotificationType_eqb (Notification.type n) booking ||
    NotificationType_eqb (Notification.type n) message ||
    NotificationType_eqb (Notification.type n) review ||
    NotificationType_eqb (Notification.type n) system
  else
    isBookingWithStatus n || isMessageOrSystem n.

Definition filterNotificationsByUserType (ns : list Notification.t)
  : M (list Notification.t) :=
  try_catch
    (user <- getCurrentUser ;;
     match user with
     | None => ret ns
     | Some u => ret (filter (visible u) ns)
     end)
    (fun _ => ret ns).

(** The view an identity lookup yields, as a pure function of its outcome. *)
Definition filteredView (who : Outcome (option User.t)) (ns : list Notification.t)
  : list Notification.t :=
  match who with
  | Ok (Some u) => filter (visible u) ns
  | _ => ns
  end.

(** *** Remote calls *)

(** [user.token], else the two built-in test tokens, else none. *)
Definition bearerToken (u : User.t) : option string :=
  if truthy (User.token u) then User.token u
  else if (User.id u =? "5")%string then
    Some "64|dTO5Gio05Om1Buxtkta02gVpvQnetCTMrofsLjeudda0034b"
  else if (User.id u =? "21")%string then
    Some "67|uCtobaBZatzbzDOeK8k1DytVHby0lpa07ERJJczu3cdfa507"
  else None.

Definition idString (i : ApiId) : string :=
  match i with
  | IdNum z => toString z
  | IdStr s => s
  end.

(** One step of [data.notifications.map]; [None] when [apiNotif.id] is
    missing and [.toString()] raises. *)
Definition convert (a : ApiNotif.t) : option Notification.t :=
  match ApiNotif.id a with
  | None => None
  | Some i =>
      Some (Notification.mk
              (idString i)
              (orElse (ApiNotif.type a) system)
              (orElse (ApiNotif.title a) "Notification")
              (orElse (ApiNotif.message a) "")
              (ApiNotif.created_at a)
              (truthy (ApiNotif.read_at a))
              None None
              (ApiNotif.data a)
              None)
  end.

Fixpoint convertAll (l : list ApiNotif.t) : M (list Notification.t) :=
  match l with
  | [] => ret []
  | a :: l' =>
      match convert a with
      | None => throw TypeError
      | Some n => ns <- convertAll l' ;; ret (n :: ns)
      end
  end.

Definition getLast : M Z := fun w => (Ok (lastApiCallTime w), w).

Definition setLast (t : Z) : M unit := fun w => (Ok tt, with_last t w).

Definition fetchNotificationsFromAPI : M (list Notification.t) :=
  try_catch
    (now <- getDateNow ;;
     last <- getLast ;;
     if now - last <? apiCallDebounceMs then ret []
     else
       setLast now ;;;
       user <- getCurrentUser ;;
       match user with
       | None => ret []
       | Some u =>
           match bearerToken u with
           | None => ret []
           | Some token =>
               response <- makeApiCall (GetNotifications token) ;;
               if fst response then
                 data <- json (snd response) ;;
                 match notifications data with
                 | Some l => if success data then convertAll l else ret []
                 | None => ret []
                 end
               else ret []
           end
       end)
    (fun _ => ret []).

Definition markAsReadOnAPI (notificationId : string) : M unit :=
  user <- getCurrentUser ;;
  match user with
  | None => ret tt
  | Some u =>
      match bearerToken u with
      | None => ret tt
      | Some token =>
          makeApiCall (PutRead notificationId token) ;;; ret tt
      end
  end.

Definition markAllAsReadOnAPI : M unit :=
  user <- getCurrentUser ;;
  match user with
  | None => ret tt
  | Some u =>
      match bearerToken u with
      | None => ret tt
      | Some token => makeApiCall (PutAllRead token) ;;; ret tt
      end
  end.

(** *** Storage-backed operations *)

Definition saveNotifications (ns : list Notification.t) : M unit :=
  try_catch
    (setItem ns ;;; notifyListeners ns)
    (fun _ => ret tt).

Definition isEmpty {A} (l : list A) : bool :=
  match l with [] => true | _ => false end.

(** The [return this.filterNotificationsByUserType(...)] statements sit
    inside [try] without [await]; the filter never rejects (see
    [filter_returns]), so sequencing it inside the block is the same. *)
Definition getNotifications : M (list Notification.t) :=
  try_catch
    (apiNotifications <- fetchNotificationsFromAPI ;;
     if negb (isEmpty apiNotifications) then
       saveNotifications apiNotifications ;;;
       filterNotificationsByUserType apiNotifications
     else
       stored <- getItem ;;
       localNotifications <- parseStored stored ;;
       filterNotificationsByUserType localNotifications)
    (fun _ =>
       try_catch
         (stored <- getItem ;;
          ns <- parseStored stored ;;
          filterNotificationsByUserType ns)
         (fun _ => ret [])).

Definition refreshNotifications : M (list Notification.t) :=
  try_catch
    (setLast 0 ;;;
     apiNotifications <- fetchNotificationsFromAPI ;;
     if negb (isEmpty apiNotifications) then
       saveNotifications apiNotifications ;;;
       filterNotificationsByUserType apiNotifications
     else
       stored <- getItem ;;
       localNotifications <- parseStored stored ;;
       filterNotificationsByUserType localNotifications)
    (fun _ =>
       stored <- getItem ;;
       ns <- parseStored stored ;;
       filterNotificationsByUserType ns).

(** [{ ...notification, id: Date.now().toString(),
       time: new Date().toLocaleString(), isRead: false }] *)
Definition fresh (d : Draft.t) (id time : string) (userId : option string)
  : Notification.t :=
  Notification.mk id (Draft.type d) (Draft.title d) (Draft.message d) time
                  false (Draft.avatar d) (Draft.action d) (Draft.data d) userId.

Definition addNotification (notification : Draft.t) : M Notification.t :=
  stored <- getItem ;;
  allNotifications <- parseStored stored ;;
  now <- getDateNow ;;
  time <- toLocaleString ;;
  let newNotification :=
    fresh notification (toString now) time (Draft.userId notification) in
  let allNotifications := newNotification :: allNotifications in
  setItem allNotifications ;;;
  filteredNotifications <- filterNotificationsByUserType allNotifications ;;
  notifyListeners filteredNotifications ;;;
  ret newNotification.

Definition addNotificationForUser (userId : string) (notification : Draft.t)
  : M Notification.t :=
  stored <- getItem ;;
  allNotifications <- parseStored stored ;;
  now <- getDateNow ;;
  time <- toLocaleString ;;
  let newNotification :=
    fresh notification (toString now) time (Some userId) in
  let allNotifications := newNotification :: allNotifications in
  setItem allNotifications ;;;
  filteredNotifications <- filterNotificationsByUserType allNotifications ;;
  notifyListeners filteredNotifications ;;;
  ret newNotification.

Definition markAsRead (notificationId : string) : M unit :=
  try_catch (markAsReadOnAPI notificationId) (fun _ => ret tt) ;;;
  stored <- getItem ;;
  allNotifications <- parseStored stored ;;
  let updated :=
    map (fun n => if (Notification.id n =? notificationId)%string
                  then Notification.read n else n) allNotifications in
  setItem updated ;;;
  filteredNotifications <- filterNotificationsByUserType updated ;;
  notifyListeners filteredNotifications.

Definition markAllAsRead : M unit :=
  try_catch markAllAsReadOnAPI (fun _ => ret tt) ;;;
  stored <- getItem ;;
  allNotifications <- parseStored stored ;;
  let updated := map Notification.read allNotifications in
  setItem updated ;;;
  filteredNotifications <- filterNotificationsByUserType updated ;;
  notifyListeners filteredNotifications.

Definition deleteNotification (notificationId : string) : M unit :=
  stored <- getItem ;;
  allNotifications <- parseStored stored ;;
  let updated :=
    filter (fun n => negb (Notification.id n =? notificationId)%string)
           allNotifications in
  setItem updated ;;;
  filteredNotifications <- filterNotificationsByUserType updated ;;
  notifyListeners filteredNotifications.

Definition getUnreadCount : M nat :=
  notifications <- getNotifications ;;
  ret (length (filter (fun n => negb (Notification.isRead n)) notifications)).

Definition clearAllNotifications : M unit :=
  removeItem ;;;
  notifyListeners [].

(** *** Notification builders *)

Definition createBookingNotification (bookingData : BookingRequest.t)
  : M Notification.t :=
  addNotificationForUser (BookingRequest.sitterId bookingData)
    (Draft.mk
       booking
       "New Booking Request"
       (BookingRequest.petOwnerName bookingData ++ " wants to book you for "
        ++ BookingRequest.date bookingData ++ " from "
        ++ BookingRequest.startTime bookingData ++ " to "
        ++ BookingRequest.endTime bookingData ++ " at ₱"
        ++ toString (BookingRequest.hourlyRate bookingData) ++ "/hour")%string
       None
       (Some "View Request")
       (Some [("sitterId", JStr (BookingRequest.sitterId bookingData));
              ("sitterName", JStr (BookingRequest.sitterName bookingData));
              ("petOwnerId", JStr (BookingRequest.petOwnerId bookingData));
              ("petOwnerName", JStr (BookingRequest.petOwnerName bookingData));
              ("bookingId", JStr (BookingRequest.bookingId bookingData));
              ("date", JStr (BookingRequest.date bookingData));
              ("startTime", JStr (BookingRequest.startTime bookingData));
              ("endTime", JStr (BookingRequest.endTime bookingData));
              ("hourlyRate", JNum (BookingRequest.hourlyRate bookingData))])
       None).

(** [bookingData.status] as the string it is. *)
Definition statusString (s : BookingStatus) : string :=
  match s with
  | StatusConfirmed => "confirmed"
  | StatusCancelled => "cancelled"
  end.

Definition createBookingConfirmationNotification
  (bookingData : BookingDecision.t) : M Notification.t :=
  let statusText :=
    match BookingDecision.status bookingData with
    | StatusConfirmed => "confirmed"
    | StatusCancelled => "cancelled"
    end in
  let emoji :=
    match BookingDecision.status bookingData with
    | StatusConfirmed => "✅"
    | StatusCancelled => "❌"
    end in
  let message :=
    match BookingDecision.status bookingData with
    | StatusConfirmed =>
        (emoji ++ " Great news! " ++ BookingDecision.sitterName bookingData
         ++ " has confirmed your booking for " ++ BookingDecision.date bookingData
         ++ " from " ++ BookingDecision.startTime bookingData
         ++ " to " ++ BookingDecision.endTime bookingData
         ++ ". You can now message them to coordinate details.")%string
    | StatusCancelled =>
        (emoji ++ " " ++ BookingDecision.sitterName bookingData
         ++ " has cancelled your booking for " ++ BookingDecision.date bookingData
         ++ " from " ++ BookingDecision.startTime bookingData
         ++ " to " ++ BookingDecision.endTime bookingData
         ++ ". Sorry for the inconvenience.")%string
    end in
  let action :=
    match BookingDecision.status bookingData with
    | StatusConfirmed => "Message"
    | StatusCancelled => "View"
    end in
  addNotificationForUser (BookingDecision.petOwnerId bookingData)
    (Draft.mk
       booking
       ("Booking " ++ capitalize statusText)%string
       message
       None
       (Some action)
       (Some [("sitterId", JStr (BookingDecision.sitterId bookingData));
              ("sitterName", JStr (BookingDecision.sitterName bookingData));
              ("petOwnerId", JStr (BookingDecision.petOwnerId bookingData));
              ("petOwnerName", JStr (BookingDecision.petOwnerName bookingData));
              ("bookingId", JStr (BookingDecision.bookingId bookingData));
              ("date", JStr (BookingDecision.date bookingData));
              ("startTime", JStr (BookingDecision.startTime bookingData));
              ("endTime", JStr (BookingDecision.endTime bookingData));
              ("status", JStr (statusString (BookingDecision.status bookingData)))])
       None).

(** [messageData.message.substring(0, 50)] and [.length > 50] count UTF-16
    code units; [String.substring] and [String.length] count the 8-bit
    characters of the model string.  The two agree on ASCII text, which is
    what the properties of the preview assume of the message. *)
Definition createMessageNotification (messageData : MessageData.t)
  : M Notification.t :=
  let title :=
    match MessageData.isBookingRelated messageData with
    | Some true => "New Message (Booking Related)"
    | _ => "New Message"
    end in
  addNotification
    (Draft.mk
       message
       title
       (MessageData.senderName messageData ++ ": "
        ++ String.substring 0 50 (MessageData.message messageData)
        ++ (if (50 <? String.length (MessageData.message messageData))%nat
            then "..." else ""))%string
       None
       (Some "Reply")
       (Some ([("senderId", JStr (MessageData.senderId messageData));
               ("senderName", JStr (MessageData.senderName messageData));
               ("message", JStr (MessageData.message messageData))]
              ++ match MessageData.isBookingRelated messageData with
                 | Some b => [("isBookingRelated", JBool b)]
                 | None => []
                 end))
       None).

(** *** Sequences of public operations *)

Inductive Op :=
| OpList
| OpRefresh
| OpAppend (d : Draft.t)
| OpAppendFor (userId : string) (d : Draft.t)
| OpMarkRead (notificationId : string)
| OpMarkAllRead
| OpDelete (notificationId : string)
| OpUnreadCount
| OpClearAll
| OpSubscribe (listener : Listener)
| OpUnsubscribe (listener : Listener).

Definition isRefresh (o : Op) : bool :=
  match o with OpRefresh => true | _ => false end.

(** A public operation, its result dropped.  [subscribe] and the closure
    it returns are synchronous and cannot raise. *)
Definition perform (o : Op) : M unit :=
  match o with
  | OpList => getNotifications ;;; ret tt
  | OpRefresh => refreshNotifications ;;; ret tt
  | OpAppend d => addNotification d ;;; ret tt
  | OpAppendFor u d => addNotificationForUser u d ;;; ret tt
  | OpMarkRead i => markAsRead i
  | OpMarkAllRead => markAllAsRead
  | OpDelete i => deleteNotification i
  | OpUnreadCount => getUnreadCount ;;; ret tt
  | OpClearAll => clearAllNotifications
  | OpSubscribe l => subscribe l ;;; ret tt
  | OpUnsubscribe l => unsubscribe l
  end.

(** The world an operation leaves, whether it returns or raises. *)
Definition exec (o : Op) (w : World) : World := snd (perform o w).

Definition run (ops : list Op) (w : World) : World :=
  fold_left (fun w o => exec o w) ops w.

(** Number of feed requests ([GET /api/notifications/]) sent so far. *)
Definition isFetch (r : Request) : bool :=
  match r with GetNotifications _ => true | _ => false end.

Definition fetches (w : World) : nat :=
  length (filter isFetch (requests w)).

End Service.

(** * Vocabulary of the properties *)

Section Vocabulary.

Variable E : Env.

(** The read-modify-write shared by the local updates. *)
Definition update (f : list Notification.t -> list Notification.t) : M unit :=
  stored <- getItem E ;;
  allNotifications <- parseStored stored ;;
  setItem E (f allNotifications) ;;;
  filteredNotifications <- filterNotificationsByUserType E (f allNotifications) ;;
  notifyListeners filteredNotifications.

(** The world a successful [update f] leaves. *)
Definition updated (f : list Notification.t -> list Notification.t)
  (w : World) : World :=
  mkWorld (listeners w) (lastApiCallTime w)
          (Some (Json (f (canonical w)))) (requests w)
          (delivered w ++
           map (fun l => (l, filteredView (authUser E (S (S (tick w))))
                                          (f (canonical w))))
               (listeners w))
          (S (S (S (tick w)))).

(** The two append operations differ only in the [userId] they store. *)
Definition append (userId : Draft.t -> option string) (d : Draft.t)
  : M Notification.t :=
  stored <- getItem E ;;
  allNotifications <- parseStored stored ;;
  now <- getDateNow E ;;
  time <- toLocaleString E ;;
  let newNotification := fresh d (toString now) time (userId d) in
  let allNotifications := newNotification :: allNotifications in
  setItem E allNotifications ;;;
  filteredNotifications <- filterNotificationsByUserType E allNotifications ;;
  notifyListeners filteredNotifications ;;;
  ret newNotification.

(** The record an append started in [w] creates. *)
Definition created (userId : Draft.t -> option string) (d : Draft.t)
  (w : World) : Notification.t :=
  fresh d (toString (dateNow E (S (tick w)))) (localeString E (S (S (tick w))))
        (userId d).

(** The world a successful append of [n] leaves. *)
Definition appended (n : Notification.t) (w : World) : World :=
  mkWorld (listeners w) (lastApiCallTime w)
          (Some (Json (n :: canonical w))) (requests w)
          (delivered w ++
           map (fun l => (l, filteredView (authUser E (4 + tick w)%nat)
                                          (n :: canonical w)))
               (listeners w))
          (5 + tick w)%nat.

(** What an attempt outside the window leaves behind. *)
Record attempted (w w' : World) : Prop := {
  att_last : lastApiCallTime w' = dateNow E (tick w);
  att_listeners : listeners w' = listeners w;
  att_storage : storage w' = storage w;
  att_delivered : delivered w' = delivered w;
  att_tick : (tick w < tick w')%nat;
  att_requests :
    requests w' = requests w \/
    exists token, requests w' = (requests w ++ [GetNotifications token])%list
}.

(** The identity lookup yields nothing to authenticate with: it raises,
    finds nobody, or finds a user with neither a token nor a built-in one. *)
Definition noCredential (who : Outcome (option User.t)) : Prop :=
  match who with
  | Ok (Some u) => bearerToken u = None
  | Ok None => True
  | Throw _ => True
  end.

(** The debounce timestamp does not move back. *)
Definition later (w w' : World) : Prop :=
  lastApiCallTime w <= lastApiCallTime w'.

(** Neither the timestamp nor the request log changes. *)
Definition quiet (w w' : World) : Prop :=
  lastApiCallTime w' = lastApiCallTime w /\ requests w' = requests w.




Definition ids (ns : list Notification.t) : list string :=
  map Notification.id ns.

(** The store and the listeners are untouched; interactions may have
    happened. *)
Definition untouched (w w' : World) : Prop :=
  storage w' = storage w /\ delivered w' = delivered w /\
  listeners w' = listeners w /\ (tick w <= tick w')%nat.

End Vocabulary.

(** [m] returns normally from every world. *)
Definition returns {A} (m : M A) : Prop :=
  forall w, exists a w', m w = (Ok a, w').

(** [m] takes every world to an [R]-related one, whether it returns or
    raises. *)
Definition respects (R : World -> World -> Prop) {A} (m : M A) : Prop :=
  forall w, R w (snd (m w)).

(** [sub] occurs in [s]. *)
Definition contains (s sub : string) : Prop :=
  exists pre post, s = (pre ++ sub ++ post)%string.

(** The string held by [data.status], if any. *)
Definition status (n : Notification.t) : option string :=
  match Notification.data n with
  | Some o =>
      match field "status" o with
      | Some (JStr s) => Some s
      | _ => None
      end
  | None => None
  end.

(** Without a [userId], a pet owner sees confirmations, cancellations,
    messages and system notices. *)
Definition ownerSees (n : Notification.t) : Prop :=
  Notification.type n = message \/
  Notification.type n = system \/
  (Notification.type n = booking /\
   (status n = Some "confirmed" \/ status n = Some "cancelled" \/
    contains (Notification.title n) "confirmed" \/
    contains (Notification.title n) "cancelled")).

(** No [refreshNotifications] among the operations. *)
Definition noRefresh (ops : list Op) : bool :=
  forallb (fun o => negb (isRefresh o)) ops.

(** The listener list after the closure of [listener] ran. *)
Definition without (listener : Listener) (ls : list Listener) : list Listener :=
  filter (fun l => negb (Nat.eqb l listener)) ls.

(** The operations that write the store. *)
Definition isMutation (o : Op) : bool :=
  match o with
  | OpAppend _ | OpAppendFor _ _ | OpMarkRead _ | OpMarkAllRead
  | OpDelete _ | OpClearAll => true
  | _ => false
  end.

(** The world in which an operation turns to the store: after the guarded
    remote step for the two read marks, at once for the others. *)
Definition storageStart (E : Env) (o : Op) (w : World) : World :=
  match o with
  | OpMarkRead i =>
      snd (try_catch (markAsReadOnAPI E i) (fun _ => ret tt) w)
  | OpMarkAllRead =>
      snd (try_catch (markAllAsReadOnAPI E) (fun _ => ret tt) w)
  | _ => w
  end.

(** The interaction at which a mutation writes the store, when it reads
    the store at interaction [t]: an append reads the clock twice in
    between. *)
Definition writeTick (o : Op) (t : nat) : nat :=
  match o with
  | OpAppend _ | OpAppendFor _ _ => (3 + t)%nat
  | _ => S t
  end.

(** What the store decides for a mutation: the removal for
    [clearAllNotifications]; for the others the read, then the parse, then
    the write. *)
Definition storeVerdict (E : Env) (o : Op) (w : World) : Outcome unit :=
  let v := storageStart E o w in
  match o with
  | OpClearAll =>
      if removeItemFails E (tick v) then Throw StorageError else Ok tt
  | _ =>
      if getItemFails E (tick v) then Throw StorageError
      else match storage v with
           | Some Malformed => Throw SyntaxError
           | _ =>
               if setItemFails E (writeTick o (tick v))
               then Throw StorageError
               else Ok tt
           end
  end.

(** The error [e] raised from [w] onwards is the store's: a rejected
    AsyncStorage call, or stored text that does not parse. *)
Definition storeFailed (E : Env) (w : World) (e : Error) : Prop :=
  (e = StorageError /\
   exists k, (tick w <= k)%nat /\
             (getItemFails E k = true \/ setItemFails E k = true \/
              removeItemFails E k = true)) \/
  (e = SyntaxError /\ storage w = Some Malformed).

(** A raised store error has left the list, the listeners and what they
    were sent as they were. *)
Definition failsClosed (E : Env) (w : World) (r : Outcome unit * World) : Prop :=
  match r with
  | (Ok _, _) => True
  | (Throw e, w') =>
      storeFailed E w e /\ storage w' = storage w /\
      delivered w' = delivered w /\ listeners w' = listeners w
  end.

(** The four type strings the interface declares and the sitter rule
    lists. *)
Definition knownType (t : NotificationType) : Prop :=
  t = booking \/ t = message \/ t = review \/ t = system.

(** Every call to the store succeeds. *)
Definition storeWorks (E : Env) : Prop :=
  forall k, getItemFails E k = false /\ setItemFails E k = false /\
            removeItemFails E k = false.

(** The stored text, if any, parses. *)
Definition parsable (w : World) : Prop := storage w <> Some Malformed.

(** [n.id === notificationId ? { ...n, isRead: true } : n] *)
Definition markOne (notificationId : string) (n : Notification.t)
  : Notification.t :=
  if (Notification.id n =? notificationId)%string then Notification.read n else n.

(** Text of ASCII characters only.  A model string is a sequence of 8-bit
    characters, a JavaScript string one of UTF-16 code units; on ASCII text
    the two agree element by element, so [String.length] and
    [String.substring] are JavaScript's [length] and [substring]. *)
Fixpoint isAscii (s : string) : bool :=
  match s with
  | EmptyString => true
  | String c r => (nat_of_ascii c <? 128)%nat && isAscii r
  end.

(** Number of unread records. *)
Definition unread (ns : list Notification.t) : nat :=
  length (filter (fun n => negb (Notification.isRead n)) ns).

(** At most one request [r] was added to the log. *)
Definition sentAtMost (r : Request) (w w' : World) : Prop :=
  requests w' = requests w \/ requests w' = requests w ++ [r].

(** A response the fetch makes nothing of: no response, a status that is
    not ok, a body that does not parse, [success] false or [notifications]
    missing. *)
Definition unusable (r : Response) : Prop :=
  match r with
  | Rejected => True
  | Responded false _ => True
  | Responded true None => True
  | Responded true (Some b) => success b = false \/ notifications b = None
  end.

(** Number of read-mark requests (PUT) sent so far. *)
Definition isPut (r : Request) : bool :=
  match r with GetNotifications _ => false | _ => true end.

Definition puts (w : World) : nat :=
  length (filter isPut (requests w)).

(** The operations by what they may ask of the remote endpoint. *)
Definition isLocal (o : Op) : bool :=
  match o with
  | OpAppend _ | OpAppendFor _ _ | OpDelete _ | OpClearAll
  | OpSubscribe _ | OpUnsubscribe _ => true
  | _ => false
  end.

Definition isMark (o : Op) : bool :=
  match o with
  | OpMarkRead _ | OpMarkAllRead => true
  | _ => false
  end.

Definition isListing (o : Op) : bool :=
  match o with
  | OpList | OpRefresh | OpUnreadCount => true
  | _ => false
  end.

Definition isSubscription (o : Op) : bool :=
  match o with
  | OpSubscribe _ | OpUnsubscribe _ => true
  | _ => false
  end.

(** No feed request was added and the timestamp is as it was. *)
Definition noFetch (w w' : World) : Prop :=
  fetches w' = fetches w /\ lastApiCallTime w' = lastApiCallTime w.

(** No read-mark request was added. *)
Definition noPut (w w' : World) : Prop := puts w' = puts w.

(** The listener list is as it was. *)
Definition sameListeners (w w' : World) : Prop := listeners w' = listeners w.

(** Parsable stored text stays parsable. *)
Definition staysParsable (w w' : World) : Prop := parsable w -> parsable w'.

(** ** Concrete worlds and collaborators *)

Definition sitter5 : User.t :=
  User.mk "5" None (Some "pet_sitter") None.

Definition owner1 : User.t :=
  User.mk "1" (Some "secret") (Some "pet_owner") None.

Definition review7 : ApiNotif.t :=
  ApiNotif.mk (Some (IdNum 7)) (Some review) (Some "New Review Received")
              (Some "You received a 5-star review") "t0" None None.

(** [review7] as [fetchNotificationsFromAPI] converts it. *)
Definition review7local : Notification.t :=
  Notification.mk "7" review "New Review Received"
                  "You received a 5-star review" "t0" false
                  None None None None.

Definition feed : Response :=
  Responded true (Some (mkBody true (Some [review7]))).

(** A clock that advances one millisecond per interaction, a signed-in
    sitter, a remote feed of one record and a working store. *)
Definition steady : Env :=
  mkEnv (fun k => 10000 + Z.of_nat k) (fun _ => "1/1/2025, 10:00:00 AM")
        (fun _ => Ok (Some sitter5)) (fun _ => feed)
        (fun _ => false) (fun _ => false) (fun _ => false).

(** As [steady], but nobody is signed in until the third interaction. *)
Definition lateSignIn : Env :=
  mkEnv (fun k => 10000 + Z.of_nat k) (fun _ => "1/1/2025, 10:00:00 AM")
        (fun k => if (k <? 3)%nat then Ok None else Ok (Some sitter5))
        (fun _ => feed)
        (fun _ => false) (fun _ => false) (fun _ => false).

(** A record with the fields the filter looks at. *)
Definition plain (id : string) (type : NotificationType) (title : string)
  (data : option Payload) (userId : option string) : Notification.t :=
  Notification.mk id type title "" "t" false None None data userId.

(** Nobody is signed in. *)
Definition signedOut : Env :=
  mkEnv (fun k => 10000 + Z.of_nat k) (fun _ => "1/1/2025, 10:00:00 AM")
        (fun _ => Ok None) (fun _ => feed)
        (fun _ => false) (fun _ => false) (fun _ => false).

(** A signed-in pet owner. *)
Definition ownerHome : Env :=
  mkEnv (fun k => 10000 + Z.of_nat k) (fun _ => "1/1/2025, 10:00:00 AM")
        (fun _ => Ok (Some owner1)) (fun _ => feed)
        (fun _ => false) (fun _ => false) (fun _ => false).

Definition three : list Notification.t :=
  [plain "3" message "New Message" None None;
   plain "2" system "Payment Processed" None None;
   plain "1" message "New Message" None None].

Definition stocked : World :=
  mkWorld [4; 9]%nat 0 (Some (Json three)) [] [] 0.


Definition hello : Draft.t :=
  Draft.mk message "New Message" "Hi!" None (Some "Reply") None None.

(** A draft of a type the owner rules hide. *)
Definition praise : Draft.t :=
  Draft.mk review "New Review Received" "Five stars" None None None None.

(** Every call to the store is rejected. *)
Definition storeDown : Env :=
  mkEnv (fun k => 10000 + Z.of_nat k) (fun _ => "1/1/2025, 10:00:00 AM")
        (fun _ => Ok (Some sitter5)) (fun _ => feed)
        (fun _ => true) (fun _ => true) (fun _ => true).

(** A message longer than the preview. *)
Definition longMessage : MessageData.t :=
  MessageData.mk "456" "Mike Wilson"
    "Hi! I have a few questions about the booking. Can you confirm the location?"
    (Some true).

(** A sitter cancels the booking of owner ["1"]. *)
Definition decision : BookingDecision.t :=
  BookingDecision.mk "5" "John Smith" "1" "Sarah Johnson" "123"
                     "Tomorrow" "2:00 PM" "6:00 PM" StatusCancelled.

(** Owner ["1"] asks sitter ["5"] for a booking. *)
Definition request : BookingRequest.t :=
  BookingRequest.mk "5" "John Smith" "1" "Sarah Johnson" "123"
                    "Tomorrow" "2:00 PM" "6:00 PM" 25.

(** Three unread records, the last addressed to user ["9"]. *)
Definition mixed : World :=
  mkWorld [] 0
          (Some (Json [plain "1" review "New Review Received" None None;
                       plain "2" message "New Message" None None;
                       plain "3" message "New Message" None (Some "9")]))
          [] [] 0.

(** Two listeners and stored text that does not parse. *)
Definition garbled : World := mkWorld [4; 9]%nat 0 (Some Malformed) [] [] 0.

(** A feed whose second element has no id. *)
Definition anonymous : ApiNotif.t :=
  ApiNotif.mk None (Some message) (Some "New Message") (Some "Hi") "t1" None None.

Definition brokenFeed : Env :=
  mkEnv (fun k => 10000 + Z.of_nat k) (fun _ => "1/1/2025, 10:00:00 AM")
        (fun _ => Ok (Some sitter5))
        (fun _ => Responded true (Some (mkBody true (Some [review7; anonymous]))))
        (fun _ => false) (fun _ => false) (fun _ => false).

(** The server answers 500 to everything. *)
Definition serverDown : Env :=
  mkEnv (fun k => 10000 + Z.of_nat k) (fun _ => "1/1/2025, 10:00:00 AM")
        (fun _ => Ok (Some sitter5)) (fun _ => Responded false None)
        (fun _ => false) (fun _ => false) (fun _ => false).

(** The store can be read but rejects every write. *)
Definition writeRejected : Env :=
  mkEnv (fun k => 10000 + Z.of_nat k) (fun _ => "1/1/2025, 10:00:00 AM")
        (fun _ => Ok (Some sitter5)) (fun _ => feed)
        (fun _ => false) (fun _ => true) (fun _ => false).

(** Nobody is signed in and the store rejects every read. *)
Definition unreadable : Env :=
  mkEnv (fun k => 10000 + Z.of_nat k) (fun _ => "1/1/2025, 10:00:00 AM")
        (fun _ => Ok None) (fun _ => feed)
        (fun _ => true) (fun _ => false) (fun _ => false).

(** * Properties *)

(** ** Strings *)

Lemma prefix_spec (p s : string) :
  String.prefix p s = true <-> exists post, s = (p ++ post)%string.
Proof.
  revert s; induction p as [|c p IH]; intros [|c' s]; simpl.
  - split; [intros _; now exists EmptyString | reflexivity].
  - split; [intros _; now exists (String c' s) | reflexivity].
  - split; [discriminate | intros [post H]; discriminate].
  - destruct (Ascii.ascii_dec c c') as [->|Hne].
    + rewrite IH. split; intros [post H]; exists post.
      * now rewrite H.
      * now inversion H.
    + split; [discriminate | intros [post H]; inversion H; congruence].
Qed.

Lemma includes_unfold (s sub : string) :
  includes s sub =
  String.prefix sub s ||
  match s with
  | EmptyString => false
  | String _ s' => includes s' sub
  end.
Proof. destruct s; reflexivity. Qed.

Lemma includes_spec (s sub : string) :
  includes s sub = true <->
  exists pre post, s = (pre ++ sub ++ post)%string.
Proof.
  split.
  - induction s as [|c s IH]; rewrite includes_unfold, orb_true_iff;
      intros [H|H].
    + apply prefix_spec in H as [post H]. now exists EmptyString, post.
    + discriminate.
    + apply prefix_spec in H as [post H]. now exists EmptyString, post.
    + destruct (IH H) as (pre & post & ->). now exists (String c pre), post.
  - intros (pre & post & ->).
    induction pre as [|c pre IH]; rewrite includes_unfold, orb_true_iff.
    + left. apply prefix_spec. now exists post.
    + right. exact IH.
Qed.


(** ** Reasoning about computations *)

Lemma returns_ret {A} (a : A) : returns (ret a).
Proof. intros w. now exists a, w. Qed.

Lemma returns_bind {A B} (m : M A) (k : A -> M B) :
  returns m -> (forall a, returns (k a)) -> returns (bind m k).
Proof.
  intros Hm Hk w. destruct (Hm w) as (a & w' & Ha).
  unfold bind. rewrite Ha. apply Hk.
Qed.

Lemma returns_try {A} (m : M A) (h : Error -> M A) :
  (forall e, returns (h e)) -> returns (try_catch m h).
Proof.
  intros Hh w. unfold try_catch.
  destruct (m w) as [[a|e] w'].
  - now exists a, w'.
  - apply Hh.
Qed.

Section Respects.
Variable R : World -> World -> Prop.
Hypothesis R_refl : forall w, R w w.
Hypothesis R_trans : forall a b c, R a b -> R b c -> R a c.

Lemma respects_ret {A} (a : A) : respects R (ret a).
Proof. intros w. apply R_refl. Qed.

Lemma respects_throw {A} (e : Error) : respects R (@throw A e).
Proof. intros w. apply R_refl. Qed.

Lemma respects_bind {A B} (m : M A) (k : A -> M B) :
  respects R m -> (forall a, respects R (k a)) -> respects R (bind m k).
Proof.
  intros Hm Hk w. unfold bind.
  specialize (Hm w). destruct (m w) as [[a|e] w']; simpl in *.
  - eapply R_trans; [exact Hm | apply Hk].
  - exact Hm.
Qed.

Lemma respects_try {A} (m : M A) (h : Error -> M A) :
  respects R m -> (forall e, respects R (h e)) -> respects R (try_catch m h).
Proof.
  intros Hm Hh w. unfold try_catch.
  specialize (Hm w). destruct (m w) as [[a|e] w']; simpl in *.
  - exact Hm.
  - eapply R_trans; [exact Hm | apply Hh].
Qed.

Lemma respects_convertAll (l : list ApiNotif.t) : respects R (convertAll l).
Proof.
  induction l as [|a l IH]; simpl.
  - apply respects_ret.
  - destruct (convert a).
    + apply respects_bind; [exact IH | intros; apply respects_ret].
    + apply respects_throw.
Qed.
End Respects.

(** Decompose a computation along its syntax: [special] closes the
    sub-computations that have a lemma of their own, the collaborator
    calls and field updates are closed by unfolding. *)
Ltac leaf close :=
  solve
    [ intros ?w;
      unfold getItem, setItem, removeItem, getCurrentUser, makeApiCall,
        notifyListeners, getDateNow, toLocaleString, getLast, setLast,
        unsubscribe, subscribe;
      repeat match goal with
             | |- context [if ?b then _ else _] => destruct b
             | |- context [match ?x with _ => _ end] => destruct x
             end;
      cbn; close ].

Ltac frame Hrefl Htrans special close :=
  repeat first
    [ special
    | apply (respects_ret _ Hrefl)
    | apply (respects_throw _ Hrefl)
    | apply (respects_convertAll _ Hrefl Htrans)
    | match goal with
      | |- respects _ (match ?x with _ => _ end) => destruct x
      | |- respects _ (bind _ _) =>
          apply (respects_bind _ Htrans); [ | intros ? ]
      | |- respects _ (try_catch _ _) =>
          apply (respects_try _ Htrans); [ | intros ? ]
      end
    | leaf close ].

(** ** Equations of the building blocks *)

Section Equations.

Variable E : Env.

(** The filter never raises: its result is the pure view of the identity
    lookup it makes, and a failing lookup leaves the list as it is. *)
Lemma filter_returns (ns : list Notification.t) (w : World) :
  filterNotificationsByUserType E ns w =
  (Ok (filteredView (authUser E (tick w)) ns), bump w).
Proof.
  unfold filterNotificationsByUserType, try_catch, bind, getCurrentUser,
    filteredView.
  destruct (authUser E (tick w)) as [[u|]|e]; reflexivity.
Qed.

Lemma update_spec f (w : World) :
  update E f w =
  if getItemFails E (tick w) then (Throw StorageError, bump w)
  else match storage w with
       | Some Malformed => (Throw SyntaxError, bump w)
       | _ =>
           if setItemFails E (S (tick w))
           then (Throw StorageError, bump (bump w))
           else (Ok tt, updated E f w)
       end.
Proof.
  unfold update, bind, getItem.
  destruct (getItemFails E (tick w)); [reflexivity|].
  unfold canonical, updated.
  destruct (storage w) as [[l|]|] eqn:Hs; simpl; try reflexivity;
    unfold setItem; simpl;
    (destruct (setItemFails E (S (tick w))); [reflexivity|]);
    rewrite filter_returns; unfold notifyListeners; simpl;
    unfold canonical; simpl; rewrite Hs; reflexivity.
Qed.

Lemma deleteNotification_update (notificationId : string) :
  deleteNotification E notificationId =
  update E (filter (fun n => negb (Notification.id n =? notificationId)%string)).
Proof. reflexivity. Qed.

Lemma markAsRead_update (notificationId : string) :
  markAsRead E notificationId =
  (try_catch (markAsReadOnAPI E notificationId) (fun _ => ret tt) ;;;
   update E (map (fun n => if (Notification.id n =? notificationId)%string
                         then Notification.read n else n))).
Proof. reflexivity. Qed.

Lemma markAllAsRead_update :
  markAllAsRead E =
  (try_catch (markAllAsReadOnAPI E) (fun _ => ret tt) ;;;
   update E (map Notification.read)).
Proof. reflexivity. Qed.

Lemma addNotification_append (d : Draft.t) :
  addNotification E d = append E Draft.userId d.
Proof. reflexivity. Qed.

Lemma addNotificationForUser_append (userId : string) (d : Draft.t) :
  addNotificationForUser E userId d = append E (fun _ => Some userId) d.
Proof. reflexivity. Qed.

Lemma append_spec userId d (w : World) :
  append E userId d w =
  if getItemFails E (tick w) then (Throw StorageError, bump w)
  else match storage w with
       | Some Malformed => (Throw SyntaxError, bump w)
       | _ =>
           if setItemFails E (3 + tick w)%nat
           then (Throw StorageError, bump (bump (bump (bump w))))
           else (Ok (created E userId d w), appended E (created E userId d w) w)
       end.
Proof.
  unfold append, bind, getItem.
  destruct (getItemFails E (tick w)); [reflexivity|].
  unfold canonical, appended, created.
  destruct (storage w) as [[l|]|] eqn:Hs; simpl; try reflexivity;
    unfold setItem; simpl;
    (destruct (setItemFails E (S (S (S (tick w))))); [reflexivity|]);
    rewrite filter_returns; unfold notifyListeners; simpl;
    unfold canonical; simpl; rewrite Hs; reflexivity.
Qed.

End Equations.

(** ** The remote fetch and the debounce *)

Section Fetch.

Variable E : Env.

Lemma convertAll_world (l : list ApiNotif.t) (w : World) :
  snd (convertAll l w) = w.
Proof.
  induction l as [|a l IH]; simpl; [reflexivity|].
  destruct (convert a); [|reflexivity].
  unfold bind. destruct (convertAll l w) as [[ns|e] w']; simpl in *; exact IH.
Qed.

Lemma fetch_returns : returns (fetchNotificationsFromAPI E).
Proof. apply returns_try. intros e. apply returns_ret. Qed.

(** Inside the window the fetch answers [[]] at once: no request is sent
    and the timestamp is left alone. *)
Lemma fetch_debounced (w : World) :
  dateNow E (tick w) - lastApiCallTime w < apiCallDebounceMs ->
  fetchNotificationsFromAPI E w = (Ok [], bump w).
Proof.
  intros H. unfold fetchNotificationsFromAPI, try_catch, bind, getDateNow, getLast.
  cbn. apply Z.ltb_lt in H. rewrite H. reflexivity.
Qed.

Lemma fetch_attempt (w : World) :
  apiCallDebounceMs <= dateNow E (tick w) - lastApiCallTime w ->
  attempted E w (snd (fetchNotificationsFromAPI E w)).
Proof.
  intros H. unfold fetchNotificationsFromAPI, try_catch, bind, getDateNow, getLast.
  cbn. apply Z.ltb_ge in H. rewrite H.
  unfold setLast, getCurrentUser; cbn.
  assert (Hsent : forall token w1,
             w1 = with_request (GetNotifications token)
                    (bump (bump (with_last (dateNow E (tick w)) (bump w)))) ->
             attempted E w w1).
  { intros token w1 ->. split; cbn;
      first [reflexivity | lia | right; eexists; reflexivity]. }
  assert (Hquiet : attempted E w (bump (with_last (dateNow E (tick w)) (bump w)))).
  { split; cbn; first [reflexivity | lia | left; reflexivity]. }
  destruct (authUser E (S (tick w))) as [[u|]|e]; cbn; try exact Hquiet.
  destruct (bearerToken u) as [token|]; cbn; try exact Hquiet.
  unfold makeApiCall; cbn.
  destruct (apiResponse E (S (S (tick w)))) as [|ok body]; cbn;
    [now apply (Hsent token)|].
  destruct ok; cbn; [|now apply (Hsent token)].
  destruct body as [b|]; cbn; [|now apply (Hsent token)].
  destruct (notifications b) as [l|]; cbn; [|now apply (Hsent token)].
  destruct (success b); cbn; [|now apply (Hsent token)].
  match goal with
  | |- context [convertAll l ?w0] =>
      pose proof (convertAll_world l w0) as Hc;
      destruct (convertAll l w0) as [[ns|e] w1]
  end; cbn in *; subst w1; now apply (Hsent token).
Qed.

(** An attempt that finds no identity, or no credential for it, sends
    nothing, yet has already moved the timestamp. *)
Lemma fetch_aborts (w : World) :
  apiCallDebounceMs <= dateNow E (tick w) - lastApiCallTime w ->
  noCredential (authUser E (S (tick w))) ->
  fetchNotificationsFromAPI E w =
  (Ok [], with_last (dateNow E (tick w)) (bump (bump w))).
Proof.
  intros H Hu. unfold fetchNotificationsFromAPI, try_catch, bind, getDateNow, getLast.
  cbn. apply Z.ltb_ge in H. rewrite H.
  unfold setLast, getCurrentUser; cbn.
  destruct (authUser E (S (tick w))) as [[u|]|e]; cbn in *; try reflexivity.
  rewrite Hu. reflexivity.
Qed.

(** The timestamp never moves back, and the other fields are untouched. *)
Lemma fetch_frame (w : World) :
  let w' := snd (fetchNotificationsFromAPI E w) in
  lastApiCallTime w <= lastApiCallTime w' /\
  listeners w' = listeners w /\ storage w' = storage w /\
  delivered w' = delivered w /\ (tick w <= tick w')%nat.
Proof.
  destruct (Z.lt_ge_cases (dateNow E (tick w) - lastApiCallTime w)
              apiCallDebounceMs) as [H|H].
  - rewrite (fetch_debounced w H). cbn. repeat split; auto with zarith.
  - destruct (fetch_attempt w H) as [H1 H2 H3 H4 H5 _]. cbn.
    repeat split; auto with arith.
    rewrite H1. unfold apiCallDebounceMs in H. lia.
Qed.

End Fetch.

(** ** What the operations leave untouched *)

Section Frames.

Variable E : Env.

Lemma later_refl w : later w w.
Proof. unfold later; lia. Qed.

Lemma later_trans a b c : later a b -> later b c -> later a c.
Proof. unfold later; lia. Qed.

Lemma fetch_later : respects later (fetchNotificationsFromAPI E).
Proof. intros w. apply (fetch_frame E w). Qed.

Ltac later_frame :=
  frame later_refl later_trans ltac:(apply fetch_later)
        ltac:(unfold later; cbn; lia).

Lemma getNotifications_later : respects later (getNotifications E).
Proof.
  unfold getNotifications, saveNotifications, filterNotificationsByUserType,
    parseStored.
  later_frame.
Qed.

Lemma perform_later (o : Op) :
  isRefresh o = false -> respects later (perform E o).
Proof.
  destruct o; intros Hr; try discriminate; cbn [perform];
    unfold addNotification, addNotificationForUser, markAsRead, markAllAsRead,
      deleteNotification, getUnreadCount, clearAllNotifications,
      markAsReadOnAPI, markAllAsReadOnAPI, filterNotificationsByUserType,
      parseStored;
    frame later_refl later_trans
          ltac:(first [apply fetch_later | apply getNotifications_later])
          ltac:(unfold later; cbn; lia).
Qed.

Lemma exec_later (o : Op) (w : World) :
  isRefresh o = false -> later w (exec E o w).
Proof. intros Hr. apply (perform_later o Hr). Qed.

Lemma run_later (ops : list Op) (w : World) :
  forallb (fun o => negb (isRefresh o)) ops = true ->
  later w (run E ops w).
Proof.
  revert w; induction ops as [|o ops IH]; intros w Hops; cbn in *.
  - apply later_refl.
  - apply andb_true_iff in Hops as [Ho Hops].
    apply negb_true_iff in Ho.
    eapply later_trans; [apply (exec_later o w Ho) | apply (IH _ Hops)].
Qed.

Lemma quiet_refl w : quiet w w.
Proof. now split. Qed.

Lemma quiet_trans a b c : quiet a b -> quiet b c -> quiet a c.
Proof. unfold quiet; intros [-> ->] [-> ->]; now split. Qed.

Lemma try_bind_split {A B} (m : M A) (k : A -> M B) (h : Error -> M B)
      (w w1 : World) (a : A) :
  m w = (Ok a, w1) ->
  try_catch (bind m k) h w = try_catch (k a) h w1.
Proof. intros H. unfold try_catch, bind. now rewrite H. Qed.

(** After its fetch, [getNotifications] only saves, reads and filters. *)
Lemma getNotifications_after_fetch (w w1 : World) (l : list Notification.t) :
  fetchNotificationsFromAPI E w = (Ok l, w1) ->
  quiet w1 (snd (getNotifications E w)).
Proof.
  intros H. unfold getNotifications. rewrite (try_bind_split _ _ _ _ _ _ H).
  revert w1 H; intros w1 _; revert w1.
  match goal with
  | |- forall w1, quiet w1 (snd (?m w1)) => change (respects quiet m)
  end.
  unfold saveNotifications, filterNotificationsByUserType, parseStored.
  frame quiet_refl quiet_trans fail ltac:(now split).
Qed.

Lemma getNotifications_debounced (w : World) :
  dateNow E (tick w) - lastApiCallTime w < apiCallDebounceMs ->
  quiet w (snd (getNotifications E w)).
Proof.
  intros H.
  apply (quiet_trans _ (bump w)); [now split|].
  apply (getNotifications_after_fetch w (bump w) []).
  now apply fetch_debounced.
Qed.

Lemma getNotifications_attempt (w : World) :
  apiCallDebounceMs <= dateNow E (tick w) - lastApiCallTime w ->
  let w' := snd (getNotifications E w) in
  lastApiCallTime w' = dateNow E (tick w) /\
  (requests w' = requests w \/
   exists token, requests w' = (requests w ++ [GetNotifications token])%list).
Proof.
  intros H w'.
  destruct (fetch_returns E w) as (l & w1 & Hf).
  destruct (getNotifications_after_fetch w w1 l Hf) as [Hl Hr].
  pose proof (fetch_attempt E w H) as Ha. rewrite Hf in Ha. cbn in Ha.
  destruct Ha as [Ha _ _ _ _ Hq].
  subst w'. rewrite Hl, Hr. now split.
Qed.

Lemma fetches_sent (w w' : World) (token : string) :
  requests w' = (requests w ++ [GetNotifications token])%list ->
  fetches w' = S (fetches w).
Proof.
  unfold fetches. intros ->.
  rewrite filter_app, length_app. cbn. lia.
Qed.

(** One call adds at most one feed request, and none inside the window. *)
Lemma getNotifications_fetches (w : World) :
  let w' := snd (getNotifications E w) in
  (dateNow E (tick w) - lastApiCallTime w < apiCallDebounceMs /\
   lastApiCallTime w' = lastApiCallTime w /\ requests w' = requests w) \/
  (lastApiCallTime w' = dateNow E (tick w) /\
   (fetches w <= fetches w' <= S (fetches w))%nat).
Proof.
  intros w'.
  destruct (Z.lt_ge_cases (dateNow E (tick w) - lastApiCallTime w)
              apiCallDebounceMs) as [H|H].
  - left. destruct (getNotifications_debounced w H). now repeat split.
  - right. destruct (getNotifications_attempt w H) as [Hl [Hr|[token Hr]]].
    + split; [exact Hl|]. fold w' in Hr. unfold fetches. rewrite Hr. lia.
    + split; [exact Hl|]. rewrite (fetches_sent w w' token Hr). lia.
Qed.

End Frames.

(** ** The debounce window *)

(** C5: two [getNotifications] calls whose clock readings differ by less
    than 3000 ms, with any operations other than [refreshNotifications]
    between them, send at most one feed request in total; and inside the
    window the fetch compares the reading with the last-attempt timestamp
    and answers the empty list without sending anything. *)
Theorem debounce_at_most_one_fetch (E : Env) (w : World) (between : list Op) :
  noRefresh between = true ->
  dateNow E (tick (run E between (snd (getNotifications E w))))
    - dateNow E (tick w) < apiCallDebounceMs ->
  let w1 := snd (getNotifications E w) in
  let w2 := run E between w1 in
  let w3 := snd (getNotifications E w2) in
  (fetches w <= fetches w1)%nat /\
  (fetches w2 <= fetches w3)%nat /\
  ((fetches w1 - fetches w) + (fetches w3 - fetches w2) <= 1)%nat /\
  (forall v,
      dateNow E (tick v) - lastApiCallTime v < apiCallDebounceMs ->
      fetchNotificationsFromAPI E v = (Ok [], bump v) /\
      requests (snd (getNotifications E v)) = requests v).
Proof.
  intros Hops Hnear w1 w2 w3.
  assert (Hwindow : forall v,
             dateNow E (tick v) - lastApiCallTime v < apiCallDebounceMs ->
             fetchNotificationsFromAPI E v = (Ok [], bump v) /\
             requests (snd (getNotifications E v)) = requests v).
  { intros v Hv. split; [now apply fetch_debounced|].
    now destruct (getNotifications_debounced E v Hv). }
  pose proof (run_later E between w1 Hops) as Hlater.
  fold w2 in Hlater. unfold later in Hlater.
  fold w1 w2 in Hnear.
  assert (Hsame : forall v, requests (snd (getNotifications E v)) = requests v ->
                            fetches (snd (getNotifications E v)) = fetches v).
  { intros v Hv. unfold fetches. now rewrite Hv. }
  destruct (getNotifications_fetches E w) as [(_ & _ & Hr1)|(Hl1 & Hf1)];
    destruct (getNotifications_fetches E w2) as [(_ & _ & Hr2)|(Hl2 & Hf2)];
    try apply Hsame in Hr1; try apply Hsame in Hr2;
    fold w1 in Hr1 || fold w1 in Hl1, Hf1;
    fold w3 in Hr2 || fold w3 in Hl2, Hf2.
  - split; [lia | split; [lia | split; [lia | exact Hwindow]]].
  - split; [lia | split; [lia | split; [lia | exact Hwindow]]].
  - split; [lia | split; [lia | split; [lia | exact Hwindow]]].
  - (* the first call attempted: the second one is inside the window *)
    assert (Hin : dateNow E (tick w2) - lastApiCallTime w2 < apiCallDebounceMs)
      by lia.
    destruct (Hwindow w2 Hin) as [_ Hr2]. apply Hsame in Hr2. fold w3 in Hr2.
    split; [lia | split; [lia | split; [lia | exact Hwindow]]].
Qed.

Lemma debounce_at_most_one_fetch_witness :
  let w1 := snd (getNotifications steady initial) in
  let w2 := run steady [OpMarkAllRead; OpUnreadCount] w1 in
  let w3 := snd (getNotifications steady w2) in
  (fetches initial <= fetches w1)%nat /\
  (fetches w2 <= fetches w3)%nat /\
  ((fetches w1 - fetches initial) + (fetches w3 - fetches w2) <= 1)%nat /\
  (forall v,
      dateNow steady (tick v) - lastApiCallTime v < apiCallDebounceMs ->
      fetchNotificationsFromAPI steady v = (Ok [], bump v) /\
      requests (snd (getNotifications steady v)) = requests v).
Proof.
  apply (debounce_at_most_one_fetch steady initial [OpMarkAllRead; OpUnreadCount]).
  - reflexivity.
  - vm_compute. reflexivity.
Defined.

(** C10: the fetch stamps the attempt before it looks for an identity
    and a credential.  A [getNotifications] call outside the window that then
    finds neither sends nothing but still moves the timestamp to its clock
    reading, so a later call within 3000 ms of it (no
    [refreshNotifications] in between) sends nothing either, whatever the
    identity collaborator answers by then. *)
Theorem aborted_fetch_consumes_window (E : Env) (w : World) (between : list Op) :
  apiCallDebounceMs <= dateNow E (tick w) - lastApiCallTime w ->
  noCredential (authUser E (S (tick w))) ->
  noRefresh between = true ->
  dateNow E (tick (run E between (snd (getNotifications E w))))
    - dateNow E (tick w) < apiCallDebounceMs ->
  let w1 := snd (getNotifications E w) in
  let w2 := run E between w1 in
  let w3 := snd (getNotifications E w2) in
  lastApiCallTime w1 = dateNow E (tick w) /\
  requests w1 = requests w /\
  fetchNotificationsFromAPI E w2 = (Ok [], bump w2) /\
  requests w3 = requests w2.
Proof.
  intros Hout Hnone Hops Hnear w1 w2 w3.
  pose proof (fetch_aborts E w Hout Hnone) as Hf.
  destruct (getNotifications_after_fetch E w _ _ Hf) as [Hl Hr].
  fold w1 in Hl, Hr. cbn in Hl, Hr.
  pose proof (run_later E between w1 Hops) as Hlater.
  fold w2 in Hlater. unfold later in Hlater. fold w1 w2 in Hnear.
  assert (Hin : dateNow E (tick w2) - lastApiCallTime w2 < apiCallDebounceMs)
    by lia.
  destruct (getNotifications_debounced E w2 Hin) as [_ Hr2].
  repeat split; auto using fetch_debounced.
Qed.

Lemma aborted_fetch_consumes_window_witness :
  let w1 := snd (getNotifications lateSignIn initial) in
  let w2 := run lateSignIn [OpMarkRead "7"] w1 in
  let w3 := snd (getNotifications lateSignIn w2) in
  authUser lateSignIn (tick w2 + 1) = Ok (Some sitter5) /\
  lastApiCallTime w1 = dateNow lateSignIn (tick initial) /\
  requests w1 = requests initial /\
  fetchNotificationsFromAPI lateSignIn w2 = (Ok [], bump w2) /\
  requests w3 = requests w2.
Proof.
  split; [reflexivity|].
  apply (aborted_fetch_consumes_window lateSignIn initial [OpMarkRead "7"]).
  - vm_compute. discriminate.
  - exact I.
  - reflexivity.
  - vm_compute. reflexivity.
Defined.

(** ** The identity and role filter *)

Lemma statusIs_status (n : Notification.t) (v : string) :
  statusIs (Notification.data n) v = true <-> status n = Some v.
Proof.
  unfold statusIs, status.
  destruct (Notification.data n) as [o|]; [|split; discriminate].
  destruct (field "status" o) as [[s|z|b]|]; try (split; discriminate).
  rewrite String.eqb_eq. split; [now intros -> | now intros [= ->]].
Qed.

Lemma NotificationType_eqb_eq (a b : NotificationType) :
  NotificationType_eqb a b = true <-> a = b.
Proof. apply String.eqb_eq. Qed.

(** A record addressed to a non-empty [userId] is judged on that alone. *)
Lemma visible_targeted (u : User.t) (n : Notification.t) (uid : string) :
  Notification.userId n = Some uid -> uid <> "" ->
  visible u n = (uid =? User.id u)%string.
Proof.
  intros Hn Hne. unfold visible, truthy, fieldIs. rewrite Hn.
  apply String.eqb_neq in Hne. now rewrite Hne.
Qed.

Lemma visible_owner (u : User.t) (n : Notification.t) :
  Notification.userId n = None -> isPetSitter u = false ->
  visible u n = true <-> ownerSees n.
Proof.
  intros Hn Hu. unfold visible, ownerSees. rewrite Hn, Hu. cbn [truthy].
  unfold isBookingWithStatus, isMessageOrSystem.
  rewrite !orb_true_iff, andb_true_iff, !orb_true_iff,
    !NotificationType_eqb_eq, !statusIs_status, !includes_spec.
  unfold contains. tauto.
Qed.

(** C6, as stated, fails: a record whose [userId] is set to the empty
    string is shown to the sitter with id ["5"], because the guard
    [if (notification.userId)] is a truthiness test and the role rules take
    over. *)
Lemma empty_userId_reaches_role_rules :
  let n := plain "1" review "New Review Received" None (Some "") in
  Notification.userId n = Some "" /\
  authUser steady (tick initial) = Ok (Some sitter5) /\
  "" <> User.id sitter5 /\
  fst (filterNotificationsByUserType steady [n] initial) = Ok [n].
Proof. repeat split. discriminate. Qed.

(** C6 (amended): with a resolved identity, a record whose [userId] is a
    non-empty string is in the filtered view exactly when that string is the
    identity's id, whatever its type and whatever the identity's role; with
    no identity resolved (the lookup finds nobody, or raises) the filter
    returns its input. *)
Theorem targeted_notification_visibility
        (E : Env) (w : World) (ns : list Notification.t) :
  (forall u, authUser E (tick w) = Ok (Some u) ->
     exists view,
       fst (filterNotificationsByUserType E ns w) = Ok view /\
       forall n uid,
         Notification.userId n = Some uid -> uid <> "" ->
         (In n view <-> In n ns /\ uid = User.id u)) /\
  (authUser E (tick w) = Ok None \/
   (exists e, authUser E (tick w) = Throw e) ->
   fst (filterNotificationsByUserType E ns w) = Ok ns).
Proof.
  rewrite filter_returns. cbn [fst]. split.
  - intros u ->. exists (filter (visible u) ns). split; [reflexivity|].
    intros n uid Hn Hne.
    rewrite filter_In, (visible_targeted u n uid Hn Hne), String.eqb_eq.
    tauto.
  - intros [->|[e ->]]; reflexivity.
Qed.

Lemma targeted_notification_visibility_witness :
  let mine := plain "1" review "New Review Received" None (Some "5") in
  let theirs := plain "2" message "New Message" None (Some "9") in
  (exists view,
      fst (filterNotificationsByUserType steady [mine; theirs] initial) = Ok view /\
      (In mine view <-> In mine [mine; theirs] /\ "5" = User.id sitter5) /\
      (In theirs view <-> In theirs [mine; theirs] /\ "9" = User.id sitter5)) /\
  fst (filterNotificationsByUserType signedOut [mine; theirs] initial)
  = Ok [mine; theirs].
Proof.
  intros mine theirs. split.
  - destruct (targeted_notification_visibility steady initial [mine; theirs])
      as [H _].
    destruct (H sitter5 eq_refl) as (view & Hv & Hin).
    exists view. split; [exact Hv|]. split.
    + apply (Hin mine "5"); [reflexivity | discriminate].
    + apply (Hin theirs "9"); [reflexivity | discriminate].
  - destruct (targeted_notification_visibility signedOut initial [mine; theirs])
      as [_ H].
    apply H. left. reflexivity.
Defined.

(** C7: for a resolved identity that is not a pet sitter, a record without
    [userId] is in the filtered view exactly when its type is message or
    system, or it is a booking whose [data.status] is confirmed or cancelled
    or whose title contains ["confirmed"] or ["cancelled"].  So a review is
    never shown to a pet owner, nor is a booking with no status and neither
    word in its title. *)
Theorem owner_visibility
        (E : Env) (w : World) (ns : list Notification.t) (u : User.t) :
  authUser E (tick w) = Ok (Some u) ->
  isPetSitter u = false ->
  exists view,
    fst (filterNotificationsByUserType E ns w) = Ok view /\
    (forall n, Notification.userId n = None ->
               (In n view <-> In n ns /\ ownerSees n)) /\
    (forall n, Notification.userId n = None ->
               Notification.type n = review -> ~ In n view) /\
    (forall n, Notification.userId n = None ->
               Notification.type n = booking -> status n = None ->
               ~ contains (Notification.title n) "confirmed" ->
               ~ contains (Notification.title n) "cancelled" ->
               ~ In n view).
Proof.
  intros Hu Hrole. rewrite filter_returns, Hu. cbn.
  exists (filter (visible u) ns). split; [reflexivity|].
  assert (Hiff : forall n, Notification.userId n = None ->
                           (In n (filter (visible u) ns) <-> In n ns /\ ownerSees n)).
  { intros n Hn. rewrite filter_In, (visible_owner u n Hn Hrole). tauto. }
  split; [exact Hiff|]. split.
  - intros n Hn Ht Hin. apply (Hiff n Hn) in Hin as [_ Hsee].
    unfold ownerSees in Hsee. rewrite Ht in Hsee.
    destruct Hsee as [H|[H|[H _]]]; discriminate.
  - intros n Hn Ht Hs Hc1 Hc2 Hin. apply (Hiff n Hn) in Hin as [_ Hsee].
    unfold ownerSees in Hsee. rewrite Ht, Hs in Hsee.
    destruct Hsee as [H|[H|[_ [H|[H|[H|H]]]]]];
      try discriminate; contradiction.
Qed.

Lemma owner_visibility_witness :
  let confirmed :=
    plain "1" booking "Booking Confirmed!" (Some [("status", JStr "confirmed")]) None in
  let request := plain "2" booking "New Booking Request" None None in
  let praise := plain "3" review "New Review Received" None None in
  let note := plain "4" system "Payment Processed" None None in
  fst (filterNotificationsByUserType ownerHome [confirmed; request; praise; note] initial)
  = Ok [confirmed; note] /\
  exists view,
    fst (filterNotificationsByUserType ownerHome [confirmed; request; praise; note] initial)
    = Ok view /\
    (forall n, Notification.userId n = None ->
               (In n view <-> In n [confirmed; request; praise; note] /\ ownerSees n)) /\
    (forall n, Notification.userId n = None ->
               Notification.type n = review -> ~ In n view) /\
    (forall n, Notification.userId n = None ->
               Notification.type n = booking -> status n = None ->
               ~ contains (Notification.title n) "confirmed" ->
               ~ contains (Notification.title n) "cancelled" ->
               ~ In n view).
Proof.
  intros confirmed request praise note. split; [reflexivity|].
  apply (owner_visibility ownerHome initial
           [confirmed; request; praise; note] owner1); reflexivity.
Defined.

(** ** Delete *)

(** C8: with a readable and writable store, [deleteNotification] keeps
    exactly the records whose id differs, in their order, persists that
    list, sends nothing to the remote endpoint, and calls every listener
    once, in registration order, with the filtered view of the new list; if
    no record has the id, the canonical list is as before and the listeners
    are still called. *)
Theorem delete_removes_matching (E : Env) (w : World) (notificationId : string) :
  getItemFails E (tick w) = false ->
  storage w <> Some Malformed ->
  setItemFails E (S (tick w)) = false ->
  let kept :=
    filter (fun n => negb (Notification.id n =? notificationId)%string)
           (canonical w) in
  let view := filteredView (authUser E (S (S (tick w)))) kept in
  exists w',
    deleteNotification E notificationId w = (Ok tt, w') /\
    canonical w' = kept /\
    storage w' = Some (Json kept) /\
    (forall n, In n (canonical w') <->
               In n (canonical w) /\ Notification.id n <> notificationId) /\
    delivered w' = delivered w ++ map (fun l => (l, view)) (listeners w) /\
    listeners w' = listeners w /\
    requests w' = requests w /\
    lastApiCallTime w' = lastApiCallTime w /\
    ((forall n, In n (canonical w) -> Notification.id n <> notificationId) ->
     canonical w' = canonical w /\
     view = filteredView (authUser E (S (S (tick w)))) (canonical w)).
Proof.
  intros Hget Hok Hset kept view.
  rewrite deleteNotification_update, update_spec, Hget, Hset.
  exists (updated E (filter (fun n => negb (Notification.id n =? notificationId)%string)) w).
  assert (Habsent : (forall n, In n (canonical w) ->
                               Notification.id n <> notificationId) ->
                    kept = canonical w).
  { intros Hno. subst kept. induction (canonical w) as [|n l IH]; cbn.
    - reflexivity.
    - pose proof (Hno n (or_introl eq_refl)) as Hn.
      apply String.eqb_neq in Hn. rewrite Hn. cbn. f_equal.
      apply IH. intros m Hm. apply Hno. now right. }
  split; [destruct (storage w) as [[l|]|]; try reflexivity; now elim Hok|].
  set (w' := updated E _ w).
  assert (Hc : canonical w' = kept) by reflexivity.
  split; [exact Hc|]. split; [reflexivity|]. split.
  { intros n. rewrite Hc. subst kept.
    rewrite filter_In, negb_true_iff, String.eqb_neq. tauto. }
  split; [reflexivity|]. split; [reflexivity|].
  split; [reflexivity|]. split; [reflexivity|].
  intros Hno. rewrite Hc. split; [now apply Habsent|].
  subst view. now rewrite Habsent.
Qed.

Lemma delete_removes_matching_witness :
  let kept := [plain "3" message "New Message" None None;
               plain "1" message "New Message" None None] in
  exists w',
    deleteNotification steady "2" stocked = (Ok tt, w') /\
    canonical w' = kept /\
    delivered w' = [(4%nat, kept); (9%nat, kept)].
Proof.
  destruct (delete_removes_matching steady stocked "2")
    as (w' & Hrun & Hc & _ & _ & Hd & _);
    [reflexivity | discriminate | reflexivity |].
  exists w'. split; [exact Hrun|]. split; [exact Hc|]. exact Hd.
Defined.

(** ** Subscriptions *)

(** C9, as stated, fails: the closure filters the listener list by
    reference, so after subscribing the same callback twice one call of
    either closure removes both registrations and a later broadcast reaches
    nobody. *)
Lemma unsubscribe_drops_every_registration :
  exists off1 off2 w2,
    subscribe 7%nat initial = (Ok off1, with_listeners [7%nat] initial) /\
    subscribe 7%nat (with_listeners [7%nat] initial) = (Ok off2, w2) /\
    listeners w2 = [7; 7]%nat /\
    listeners (snd (off1 w2)) = [] /\
    delivered (snd (notifyListeners three (snd (off1 w2)))) = [].
Proof.
  exists (unsubscribe 7%nat), (unsubscribe 7%nat),
    (with_listeners [7; 7]%nat initial).
  repeat split.
Qed.

Lemma without_absent (listener : Listener) (ls : list Listener) :
  ~ In listener ls -> without listener ls = ls.
Proof.
  unfold without. induction ls as [|l ls IH]; cbn; intros Hno; [reflexivity|].
  destruct (Nat.eqb_spec l listener) as [->|Hne]; cbn.
  - elim Hno. now left.
  - f_equal. apply IH. intros Hin. apply Hno. now right.
Qed.

Lemma without_idem (listener : Listener) (ls : list Listener) :
  without listener (without listener ls) = without listener ls.
Proof.
  apply without_absent. unfold without. intros Hin.
  apply filter_In in Hin as [_ Hin].
  now rewrite Nat.eqb_refl in Hin.
Qed.

(** C9 (amended): [subscribe] appends the callback and returns a closure
    that removes every registration of that callback and no other, keeping
    the order of the rest, so that later broadcasts reach exactly the
    remaining registrations; invoking the closure again changes nothing; and
    when the callback was not registered before, subscribing and invoking
    the closure restores the listener list. *)
Theorem unsubscribe_removes_callback (listener : Listener) (w : World) :
  exists off,
    subscribe listener w =
    (Ok off, with_listeners (listeners w ++ [listener]) w) /\
    (forall v,
        off v = (Ok tt, with_listeners (without listener (listeners v)) v) /\
        off (snd (off v)) = (Ok tt, snd (off v)) /\
        (forall l, In l (listeners (snd (off v))) <->
                   In l (listeners v) /\ l <> listener) /\
        (forall ns,
            delivered (snd (notifyListeners ns (snd (off v)))) =
            delivered v ++
            map (fun l => (l, ns)) (without listener (listeners v)))) /\
    (~ In listener (listeners w) ->
     listeners (snd (off (snd (subscribe listener w)))) = listeners w).
Proof.
  exists (unsubscribe listener). split; [reflexivity|]. split.
  - intros v. split; [reflexivity|]. split.
    + unfold unsubscribe. cbn. fold (without listener (listeners v)).
      fold (without listener (without listener (listeners v))).
      rewrite without_idem. reflexivity.
    + split; [|reflexivity].
      intros l. cbn. rewrite filter_In, negb_true_iff, Nat.eqb_neq. tauto.
  - intros Hno. cbn. rewrite filter_app. cbn. rewrite Nat.eqb_refl. cbn.
    rewrite app_nil_r. now apply without_absent.
Qed.

Lemma unsubscribe_removes_callback_witness :
  exists off,
    subscribe 5%nat stocked = (Ok off, with_listeners [4; 9; 5]%nat stocked) /\
    listeners (snd (off (snd (subscribe 5%nat stocked)))) = [4; 9]%nat.
Proof.
  destruct (unsubscribe_removes_callback 5%nat stocked) as (off & Hs & _ & Hb).
  exists off. split; [exact Hs|]. apply Hb.
  cbn. intros [H|[H|[]]]; discriminate.
Defined.

(** ** Identifiers of created notifications *)

Section Ticks.

Variable E : Env.







End Ticks.




(** ** Failure paths *)

Section Failures.

Variable E : Env.

Lemma untouched_refl w : untouched w w.
Proof. unfold untouched; auto. Qed.

Lemma untouched_trans a b c : untouched a b -> untouched b c -> untouched a c.
Proof.
  unfold untouched. intros (-> & -> & -> & ?) (-> & -> & -> & ?).
  repeat split; lia.
Qed.

Lemma markAsReadOnAPI_untouched (notificationId : string) :
  respects untouched
           (try_catch (markAsReadOnAPI E notificationId) (fun _ => ret tt)).
Proof.
  unfold markAsReadOnAPI.
  frame untouched_refl untouched_trans fail
        ltac:(unfold untouched; cbn; auto with arith).
Qed.

Lemma markAllAsReadOnAPI_untouched :
  respects untouched (try_catch (markAllAsReadOnAPI E) (fun _ => ret tt)).
Proof.
  unfold markAllAsReadOnAPI.
  frame untouched_refl untouched_trans fail
        ltac:(unfold untouched; cbn; auto with arith).
Qed.

Lemma failsClosed_later (w w1 : World) (r : Outcome unit * World) :
  untouched w w1 -> failsClosed E w1 r -> failsClosed E w r.
Proof.
  intros (Hs & Hd & Hl & Ht). destruct r as [[u|e] w']; cbn; [trivial|].
  intros (Hf & -> & -> & ->). repeat split; auto.
  destruct Hf as [(He & k & Hk & Hf)|(He & Hm)].
  - left. split; [exact He|]. exists k. split; [lia | exact Hf].
  - right. split; [exact He|]. now rewrite <- Hs.
Qed.

Lemma update_failsClosed f (w : World) : failsClosed E w (update E f w).
Proof.
  rewrite update_spec.
  destruct (getItemFails E (tick w)) eqn:Hg.
  { cbn. repeat split. left. split; [reflexivity|]. exists (tick w). auto. }
  destruct (storage w) as [[l|]|] eqn:Hs;
    try (cbn; repeat split; now right);
    (destruct (setItemFails E (S (tick w))) eqn:Hset; [|exact I]);
    cbn; repeat split; auto; left; (split; [reflexivity|]);
    exists (S (tick w)); auto.
Qed.

Lemma append_failsClosed userId d (w : World) :
  failsClosed E w ((append E userId d ;;; ret tt) w).
Proof.
  unfold bind. rewrite append_spec.
  destruct (getItemFails E (tick w)) eqn:Hg.
  { cbn. repeat split. left. split; [reflexivity|]. exists (tick w). auto. }
  destruct (storage w) as [[l|]|] eqn:Hs;
    try (cbn; repeat split; now right);
    (destruct (setItemFails E (3 + tick w)) eqn:Hset; [|exact I]);
    cbn; repeat split; auto; left; (split; [reflexivity|]);
    exists (3 + tick w)%nat; split; auto; lia.
Qed.

Lemma remote_then_update (m : M unit) f (w : World) :
  respects untouched (try_catch m (fun _ => ret tt)) ->
  failsClosed E w ((try_catch m (fun _ => ret tt) ;;; update E f) w).
Proof.
  intros Hm. specialize (Hm w). unfold bind.
  destruct (returns_try m (fun _ => ret tt) (fun e => returns_ret tt) w)
    as (u & w1 & Hr).
  rewrite Hr in Hm |- *. cbn in Hm.
  apply (failsClosed_later w w1); [exact Hm | apply update_failsClosed].
Qed.

Lemma mutation_failsClosed (o : Op) (w : World) :
  isMutation o = true -> failsClosed E w (perform E o w).
Proof.
  destruct o; intros Hm; try discriminate; cbn [perform].
  - rewrite addNotification_append. apply append_failsClosed.
  - rewrite addNotificationForUser_append. apply append_failsClosed.
  - rewrite markAsRead_update. apply remote_then_update.
    apply markAsReadOnAPI_untouched.
  - rewrite markAllAsRead_update. apply remote_then_update.
    apply markAllAsReadOnAPI_untouched.
  - rewrite deleteNotification_update. apply update_failsClosed.
  - unfold clearAllNotifications, bind, removeItem.
    destruct (removeItemFails E (tick w)) eqn:Hr; cbn; [|exact I].
    repeat split. left. split; [reflexivity|]. exists (tick w). auto.
Qed.

(** With the store down, every mutation raises. *)
Lemma update_raises f (w : World) :
  (forall k, getItemFails E k = true) ->
  fst (update E f w) = Throw StorageError.
Proof. intros Hg. rewrite update_spec, Hg. reflexivity. Qed.

Lemma remote_then_update_raises (m : M unit) f (w : World) :
  (forall k, getItemFails E k = true) ->
  fst ((try_catch m (fun _ => ret tt) ;;; update E f) w) = Throw StorageError.
Proof.
  intros Hg. unfold bind.
  destruct (returns_try m (fun _ => ret tt) (fun e => returns_ret tt) w)
    as (u & w1 & Hr).
  rewrite Hr. now apply update_raises.
Qed.

Lemma mutation_raises (o : Op) (w : World) :
  isMutation o = true ->
  (forall k, getItemFails E k = true /\ removeItemFails E k = true) ->
  fst (perform E o w) = Throw StorageError.
Proof.
  intros Hm Hdown.
  assert (Hg : forall k, getItemFails E k = true) by (intros k; apply Hdown).
  destruct o; try discriminate; cbn [perform].
  - rewrite addNotification_append. unfold bind.
    rewrite append_spec, Hg. reflexivity.
  - rewrite addNotificationForUser_append. unfold bind.
    rewrite append_spec, Hg. reflexivity.
  - rewrite markAsRead_update. now apply remote_then_update_raises.
  - rewrite markAllAsRead_update. now apply remote_then_update_raises.
  - rewrite deleteNotification_update. now apply update_raises.
  - unfold clearAllNotifications, bind, removeItem.
    destruct (Hdown (tick w)) as [_ ->]. reflexivity.
Qed.

(** Every mutation ends as the store decides. *)
Lemma mutation_verdict (o : Op) (w : World) :
  isMutation o = true ->
  fst (perform E o w) = storeVerdict E o w /\
  storage (storageStart E o w) = storage w.
Proof.
  assert (Hupd : forall f v,
             fst (update E f v) =
             if getItemFails E (tick v) then Throw StorageError
             else match storage v with
                  | Some Malformed => Throw SyntaxError
                  | _ => if setItemFails E (S (tick v))
                         then Throw StorageError else Ok tt
                  end).
  { intros f v. rewrite update_spec.
    destruct (getItemFails E (tick v)); [reflexivity|].
    destruct (storage v) as [[l|]|]; try reflexivity;
      now destruct (setItemFails E (S (tick v))). }
  assert (Happ : forall uid d,
             fst ((append E uid d ;;; ret tt) w) =
             if getItemFails E (tick w) then Throw StorageError
             else match storage w with
                  | Some Malformed => Throw SyntaxError
                  | _ => if setItemFails E (3 + tick w)
                         then Throw StorageError else Ok tt
                  end).
  { intros uid d. unfold bind. rewrite append_spec.
    destruct (getItemFails E (tick w)); [reflexivity|].
    destruct (storage w) as [[l|]|]; try reflexivity;
      now destruct (setItemFails E (3 + tick w)). }
  destruct o; intros Hm; try discriminate;
    unfold storeVerdict, storageStart, writeTick; cbn [perform].
  - rewrite addNotification_append. split; [apply Happ | reflexivity].
  - rewrite addNotificationForUser_append. split; [apply Happ | reflexivity].
  - rewrite markAsRead_update. unfold bind.
    pose proof (markAsReadOnAPI_untouched notificationId w) as (Hs & _).
    destruct (returns_try (markAsReadOnAPI E notificationId) (fun _ => ret tt)
                (fun e => returns_ret tt) w) as ([] & w1 & Hr).
    rewrite Hr in Hs |- *. cbn [snd] in *. split; [apply Hupd | exact Hs].
  - rewrite markAllAsRead_update. unfold bind.
    pose proof (markAllAsReadOnAPI_untouched w) as (Hs & _).
    destruct (returns_try (markAllAsReadOnAPI E) (fun _ => ret tt)
                (fun e => returns_ret tt) w) as ([] & w1 & Hr).
    rewrite Hr in Hs |- *. cbn [snd] in *. split; [apply Hupd | exact Hs].
  - rewrite deleteNotification_update. split; [apply Hupd | reflexivity].
  - unfold clearAllNotifications, bind, removeItem. split; [|reflexivity].
    now destruct (removeItemFails E (tick w)).
Qed.

Lemma getNotifications_returns : returns (getNotifications E).
Proof.
  apply returns_try. intros e. apply returns_try. intros e'. apply returns_ret.
Qed.

Lemma getUnreadCount_returns : returns (getUnreadCount E).
Proof.
  apply returns_bind; [apply getNotifications_returns|].
  intros ns. apply returns_ret.
Qed.

(** With nothing from the remote endpoint and an unreadable store the
    list is empty. *)
Lemma getNotifications_default (w : World) :
  fst (fetchNotificationsFromAPI E w) = Ok [] ->
  (forall k, getItemFails E k = true) ->
  fst (getNotifications E w) = Ok [].
Proof.
  intros Hf Hg.
  destruct (fetchNotificationsFromAPI E w) as [r w1] eqn:Hfw.
  cbn in Hf. subst r.
  unfold getNotifications. rewrite (try_bind_split _ _ _ _ _ _ Hfw).
  unfold try_catch, bind, getItem. cbn. rewrite !Hg. reflexivity.
Qed.

End Failures.

(** C1, as stated, fails: the local updates and the appends read and
    write the store outside any [try], so a rejected AsyncStorage call
    reaches the caller. *)
Lemma store_failure_reaches_caller :
  fst (markAsRead unreadable "2" stocked) = Throw StorageError /\
  fst (addNotification unreadable hello stocked) = Throw StorageError /\
  fst (deleteNotification unreadable "2" stocked) = Throw StorageError.
Proof. repeat split. Qed.

(** C1 (amended): for a store whose key is absent, holds a serialized
    list of notification records or holds text that does not parse,
    [getNotifications] and [getUnreadCount] return normally from every world
    under every behaviour of the collaborators, with the empty list (and a
    count of zero) when the remote endpoint yields nothing and the store
    cannot be read.  The appends, [markAsRead], [markAllAsRead],
    [deleteNotification] and [clearAllNotifications] swallow every failure
    of the remote endpoint and of the identity lookup, and end exactly as
    the store decides: a rejected read, a rejected write or removal, or
    stored text that does not parse reaches the caller as that error, and
    otherwise the operation returns.  When one of them raises, the stored
    list, the listeners and what they were sent are unchanged. *)
Theorem failure_paths (E : Env) (w : World) :
  (exists ns w', getNotifications E w = (Ok ns, w')) /\
  (exists n w', getUnreadCount E w = (Ok n, w')) /\
  (fst (fetchNotificationsFromAPI E w) = Ok [] ->
   (forall k, getItemFails E k = true) ->
   fst (getNotifications E w) = Ok [] /\ fst (getUnreadCount E w) = Ok 0%nat) /\
  (forall o, isMutation o = true -> failsClosed E w (perform E o w)) /\
  (forall o, isMutation o = true ->
             (forall k, getItemFails E k = false /\ setItemFails E k = false /\
                        removeItemFails E k = false) ->
             storage w <> Some Malformed ->
             fst (perform E o w) = Ok tt) /\
  (forall o, isMutation o = true ->
             (forall k, getItemFails E k = true /\ removeItemFails E k = true) ->
             fst (perform E o w) = Throw StorageError) /\
  (forall o, isMutation o = true ->
             fst (perform E o w) = storeVerdict E o w /\
             storage (storageStart E o w) = storage w).
Proof.
  split; [apply getNotifications_returns|].
  split; [apply getUnreadCount_returns|].
  split.
  { intros Hf Hg. pose proof (getNotifications_default E w Hf Hg) as Hl.
    split; [exact Hl|]. unfold getUnreadCount, bind.
    destruct (getNotifications E w) as [r w']. cbn in Hl. now subst r. }
  split; [intros o Ho; now apply mutation_failsClosed|].
  split;
    [|split; [intros o Ho Hdown; now apply mutation_raises
             |intros o Ho; now apply mutation_verdict]].
  intros o Ho Hstore Hparse.
  pose proof (mutation_failsClosed E o w Ho) as Hc.
  destruct (perform E o w) as [[[]|e] w']; [reflexivity|].
  exfalso. destruct Hc as ([(_ & k & _ & Hk)|(_ & Hm)] & _).
  - destruct (Hstore k) as (Hg & Hs & Hr).
    destruct Hk as [Hk|[Hk|Hk]]; congruence.
  - contradiction.
Qed.

Lemma failure_paths_witness :
  (fst (getNotifications unreadable initial) = Ok [] /\
   fst (getUnreadCount unreadable initial) = Ok 0%nat) /\
  failsClosed unreadable stocked (perform unreadable (OpMarkRead "2") stocked) /\
  fst (perform steady (OpMarkRead "2") stocked) = Ok tt /\
  fst (perform storeDown OpClearAll stocked) = Throw StorageError /\
  fst (perform writeRejected (OpDelete "2") stocked) = Throw StorageError /\
  fst (perform steady (OpMarkAllRead) garbled) = Throw SyntaxError.
Proof.
  split; [|split; [|split; [|split; [|split]]]].
  - apply (failure_paths unreadable initial); reflexivity.
  - apply (failure_paths unreadable stocked). reflexivity.
  - destruct (failure_paths steady stocked) as (_ & _ & _ & _ & H & _).
    apply H; [reflexivity | | discriminate].
    intros k. repeat split.
  - destruct (failure_paths storeDown stocked) as (_ & _ & _ & _ & _ & H & _).
    apply H; [reflexivity |].
    intros k. split; reflexivity.
  - destruct (failure_paths writeRejected stocked) as (_ & _ & _ & _ & _ & _ & H).
    destruct (H (OpDelete "2") eq_refl) as [-> _]. reflexivity.
  - destruct (failure_paths steady garbled) as (_ & _ & _ & _ & _ & _ & H).
    destruct (H OpMarkAllRead eq_refl) as [-> _]. reflexivity.
Defined.

(** ** Broadcast after a remote fetch *)

Lemma update_ok (E : Env) f (w w' : World) :
  update E f w = (Ok tt, w') -> w' = updated E f w.
Proof.
  rewrite update_spec.
  destruct (getItemFails E (tick w)); [discriminate|].
  destruct (storage w) as [[l|]|]; try discriminate;
    (destruct (setItemFails E (S (tick w))); [discriminate|]);
    now intros [= <-].
Qed.

(** Every local mutation that returns has called each listener once, in
    registration order, with the list it stored as filtered by the identity
    lookup it makes right after its write; [clearAllNotifications] makes no
    lookup and sends the empty list. *)
Lemma local_broadcasts_filtered (E : Env) (o : Op) (w w' : World) :
  isMutation o = true ->
  perform E o w = (Ok tt, w') ->
  let who :=
    match o with
    | OpClearAll => Ok None
    | _ => authUser E (S (writeTick o (tick (storageStart E o w))))
    end in
  delivered w' =
  delivered w ++
  map (fun l => (l, filteredView who (canonical w'))) (listeners w).
Proof.
  destruct o as [| |d|userId d|notificationId| |notificationId| | |listener|listener];
    intros Hm Hrun; try discriminate; cbn [perform] in Hrun;
    cbn [storageStart writeTick]; cbv zeta.
  - rewrite addNotification_append in Hrun. unfold bind in Hrun.
    rewrite append_spec in Hrun.
    destruct (getItemFails E (tick w)); [discriminate|].
    destruct (storage w) as [[l|]|]; try discriminate;
      (destruct (setItemFails E (3 + tick w)); [discriminate|]);
      injection Hrun as <-; reflexivity.
  - rewrite addNotificationForUser_append in Hrun. unfold bind in Hrun.
    rewrite append_spec in Hrun.
    destruct (getItemFails E (tick w)); [discriminate|].
    destruct (storage w) as [[l|]|]; try discriminate;
      (destruct (setItemFails E (3 + tick w)); [discriminate|]);
      injection Hrun as <-; reflexivity.
  - rewrite markAsRead_update in Hrun. unfold bind in Hrun.
    pose proof (markAsReadOnAPI_untouched E notificationId w) as (_ & Hd & Hl & _).
    destruct (try_catch (markAsReadOnAPI E notificationId) (fun _ => ret tt) w)
      as [[u|e] w1]; [|discriminate].
    apply update_ok in Hrun as ->. cbn in *. now rewrite Hd, Hl.
  - rewrite markAllAsRead_update in Hrun. unfold bind in Hrun.
    pose proof (markAllAsReadOnAPI_untouched E w) as (_ & Hd & Hl & _).
    destruct (try_catch (markAllAsReadOnAPI E) (fun _ => ret tt) w)
      as [[u|e] w1]; [|discriminate].
    apply update_ok in Hrun as ->. cbn in *. now rewrite Hd, Hl.
  - rewrite deleteNotification_update in Hrun.
    now apply update_ok in Hrun as ->.
  - revert Hrun.
    unfold clearAllNotifications, bind, removeItem.
    destruct (removeItemFails E (tick w)); [discriminate|].
    now intros [= <-].
Qed.

(** C2 (code bug): on the remote-success path [saveNotifications] hands
    the listeners the converted remote list as it is.  For a signed-in pet
    owner and a remote feed holding one review, [getNotifications] returns
    the empty filtered view, while the listener is called with the review. *)
Theorem remote_success_broadcasts_unfiltered :
  let w := with_listeners [0%nat] initial in
  let sent :=
    Notification.mk "7" review "New Review Received"
                    "You received a 5-star review" "t0" false
                    None None None None in
  fst (getNotifications ownerHome w) = Ok [] /\
  canonical (snd (getNotifications ownerHome w)) = [sent] /\
  filteredView (Ok (Some owner1)) [sent] = [] /\
  delivered (snd (getNotifications ownerHome w)) = [(0%nat, [sent])] /\
  fst (refreshNotifications ownerHome w) = Ok [] /\
  delivered (snd (refreshNotifications ownerHome w)) = [(0%nat, [sent])].
Proof. cbv zeta. repeat split. Qed.

(** ** Refresh against list *)

(** A guarded block whose handler is unguarded, against the same block
    started from the reset timestamp with a guarded handler. *)
Lemma unguarded_handler {A} (body tail : M A) (d : A) (w : World) :
  let r := try_catch (setLast 0 ;;; body) (fun _ => tail) w in
  let g := try_catch body (fun _ => try_catch tail (fun _ => ret d))
                     (with_last 0 w) in
  r = g \/ exists e w', r = (Throw e, w') /\ g = (Ok d, w').
Proof.
  unfold try_catch, bind, setLast. cbn.
  destruct (body (with_last 0 w)) as [[a|e] w1]; [now left|].
  destruct (tail w1) as [[a|e'] w2]; [now left|].
  right. now exists e', w2.
Qed.

(** Where [refreshNotifications] returns it agrees with
    [getNotifications] run after the timestamp is reset; otherwise it raises
    where [getNotifications] returns the empty list. *)
Lemma refresh_agrees_or_raises (E : Env) (w : World) :
  refreshNotifications E w = getNotifications E (with_last 0 w) \/
  exists e w',
    refreshNotifications E w = (Throw e, w') /\
    getNotifications E (with_last 0 w) = (Ok [], w').
Proof.
  unfold refreshNotifications, getNotifications.
  apply (unguarded_handler _ _ [] w).
Qed.

(** C3 (code bug): when the remote endpoint yields nothing and both reads
    of the store are rejected, [refreshNotifications] raises, whereas
    [getNotifications] started from the reset timestamp returns the empty
    list; the two leave the same world. *)
Theorem refresh_raises_where_list_returns :
  fst (refreshNotifications unreadable stocked) = Throw StorageError /\
  fst (getNotifications unreadable (with_last 0 stocked)) = Ok [] /\
  snd (refreshNotifications unreadable stocked)
  = snd (getNotifications unreadable (with_last 0 stocked)).
Proof. repeat split. Qed.


(** * Further properties *)

(** ** Read marks *)

Section ReadMarks.

Variable E : Env.

(** The guarded remote step of [markAsRead]: it returns, sends at most
    one PUT for the id, and touches nothing else. *)
Lemma markAsReadOnAPI_guarded (notificationId : string) (w : World) :
  exists w1,
    try_catch (markAsReadOnAPI E notificationId) (fun _ => ret tt) w = (Ok tt, w1) /\
    untouched w w1 /\
    lastApiCallTime w1 = lastApiCallTime w /\
    (requests w1 = requests w \/
     exists token, requests w1 = requests w ++ [PutRead notificationId token]).
Proof.
  unfold markAsReadOnAPI, try_catch, bind, getCurrentUser, untouched.
  destruct (authUser E (tick w)) as [[u|]|e]; cbn;
    try (eexists; repeat split; cbn; auto; fail).
  destruct (bearerToken u) as [token|]; cbn;
    try (eexists; repeat split; cbn; auto; fail).
  unfold makeApiCall.
  destruct (apiResponse E (tick (bump w))) as [|ok body]; cbn;
    eexists; (split; [reflexivity|]); cbn;
    (split; [repeat split; auto|]); (split; [reflexivity|]);
    right; now exists token.
Qed.

Lemma markAsReadOnAPI_ticks (notificationId : string) (w : World) :
  let v := snd (try_catch (markAsReadOnAPI E notificationId) (fun _ => ret tt) w) in
  tick v = S (tick w) \/ tick v = S (S (tick w)).
Proof.
  unfold markAsReadOnAPI, try_catch, bind, getCurrentUser.
  destruct (authUser E (tick w)) as [[u|]|e]; cbn; auto.
  destruct (bearerToken u) as [token|]; cbn; auto.
  unfold makeApiCall.
  destruct (apiResponse E (tick (bump w))) as [|ok body]; cbn; auto.
Qed.

Lemma markAllAsReadOnAPI_guarded (w : World) :
  exists w1,
    try_catch (markAllAsReadOnAPI E) (fun _ => ret tt) w = (Ok tt, w1) /\
    untouched w w1 /\
    lastApiCallTime w1 = lastApiCallTime w /\
    (requests w1 = requests w \/
     exists token, requests w1 = requests w ++ [PutAllRead token]).
Proof.
  unfold markAllAsReadOnAPI, try_catch, bind, getCurrentUser, untouched.
  destruct (authUser E (tick w)) as [[u|]|e]; cbn;
    try (eexists; repeat split; cbn; auto; fail).
  destruct (bearerToken u) as [token|]; cbn;
    try (eexists; repeat split; cbn; auto; fail).
  unfold makeApiCall.
  destruct (apiResponse E (tick (bump w))) as [|ok body]; cbn;
    eexists; (split; [reflexivity|]); cbn;
    (split; [repeat split; auto|]); (split; [reflexivity|]);
    right; now exists token.
Qed.

Lemma update_runs f (w : World) :
  storeWorks E -> parsable w -> update E f w = (Ok tt, updated E f w).
Proof.
  intros Hs Hp. rewrite update_spec.
  destruct (Hs (tick w)) as (-> & _ & _).
  destruct (Hs (S (tick w))) as (_ & -> & _).
  destruct (storage w) as [[l|]|] eqn:Hst; try reflexivity.
  now elim Hp.
Qed.

Lemma parsable_untouched (w w1 : World) :
  untouched w w1 -> parsable w -> parsable w1 /\ canonical w1 = canonical w.
Proof.
  intros (Hs & _) Hp. unfold parsable, canonical. rewrite Hs. now split.
Qed.

End ReadMarks.

Lemma ids_markOne (notificationId : string) (ns : list Notification.t) :
  ids (map (markOne notificationId) ns) = ids ns.
Proof.
  unfold ids. rewrite map_map. apply map_ext. intros n. unfold markOne.
  now destruct (Notification.id n =? notificationId)%string.
Qed.

Lemma markOne_absent (notificationId : string) (ns : list Notification.t) :
  (forall n, In n ns -> Notification.id n <> notificationId) ->
  map (markOne notificationId) ns = ns.
Proof.
  induction ns as [|n ns IH]; cbn; intros Hno; [reflexivity|].
  unfold markOne at 1.
  pose proof (Hno n (or_introl eq_refl)) as Hn. apply String.eqb_neq in Hn.
  rewrite Hn. f_equal. apply IH. intros m Hm. apply Hno. now right.
Qed.

(** X1: with a working store, [markAsRead] sets [isRead] on exactly the
    records with the given id and keeps every other record, the ids and the
    order, whatever the remote endpoint and the identity lookup do; it sends
    at most one PUT for that id, and when no record has the id the list is
    rewritten unchanged and the listeners are still called.  Each listener
    is called once, in registration order, with the rewritten list as
    filtered by the identity lookup the call makes after its write: the
    remote step takes one or two interactions, the read and the write one
    each, and the lookup is the next. *)
Theorem markAsRead_marks_matching (E : Env) (w : World) (notificationId : string) :
  storeWorks E -> parsable w ->
  let v := storageStart E (OpMarkRead notificationId) w in
  exists w',
    markAsRead E notificationId w = (Ok tt, w') /\
    canonical w' = map (markOne notificationId) (canonical w) /\
    ids (canonical w') = ids (canonical w) /\
    ((forall n, In n (canonical w) -> Notification.id n <> notificationId) ->
     canonical w' = canonical w) /\
    (tick v = S (tick w) \/ tick v = S (S (tick w))) /\
    delivered w' =
    delivered w ++
    map (fun l => (l, filteredView (authUser E (S (S (tick v))))
                                   (map (markOne notificationId) (canonical w))))
        (listeners w) /\
    listeners w' = listeners w /\
    lastApiCallTime w' = lastApiCallTime w /\
    (requests w' = requests w \/
     exists token, requests w' = requests w ++ [PutRead notificationId token]).
Proof.
  intros Hs Hp v. rewrite markAsRead_update. unfold bind.
  pose proof (markAsReadOnAPI_ticks E notificationId w) as Ht.
  change (snd (try_catch (markAsReadOnAPI E notificationId) (fun _ => ret tt) w))
    with v in Ht.
  destruct (markAsReadOnAPI_guarded E notificationId w)
    as (w1 & Hrun & Hu & Hl & Hr).
  assert (Hv : v = w1) by (unfold v, storageStart; now rewrite Hrun).
  rewrite Hrun, Hv in *. clear Hrun Hv v.
  destruct (parsable_untouched w w1 Hu Hp) as [Hp1 Hc1].
  rewrite (update_runs E _ w1 Hs Hp1).
  destruct Hu as (_ & Hd & Hls & _).
  eexists. split; [reflexivity|]. cbn. rewrite Hc1, Hd, Hls.
  fold (markOne notificationId).
  split; [reflexivity|]. split; [apply ids_markOne|].
  split; [apply markOne_absent|].
  split; [exact Ht|].
  split; [reflexivity|]. split; [reflexivity|]. split; [exact Hl | exact Hr].
Qed.

Lemma markAsRead_marks_matching_witness :
  (exists w',
      markAsRead steady "2" stocked = (Ok tt, w') /\
      map Notification.isRead (canonical w') = [false; true; false] /\
      ids (canonical w') = ["3"; "2"; "1"]) /\
  (exists w',
      markAsRead ownerHome "2" (with_listeners [4%nat] mixed) = (Ok tt, w') /\
      delivered w'
      = [(4%nat, [Notification.read (plain "2" message "New Message" None None)])]).
Proof.
  split.
  - destruct (markAsRead_marks_matching steady stocked "2")
      as (w' & Hrun & Hc & Hi & _);
      [intros k; repeat split | discriminate |].
    exists w'. split; [exact Hrun|]. split; [now rewrite Hc | exact Hi].
  - destruct (markAsRead_marks_matching ownerHome (with_listeners [4%nat] mixed) "2")
      as (w' & Hrun & _ & _ & _ & _ & Hd & _);
      [intros k; repeat split | discriminate |].
    exists w'. split; [exact Hrun | exact Hd].
Defined.

Lemma read_idem (ns : list Notification.t) :
  map Notification.read (map Notification.read ns) = map Notification.read ns.
Proof. rewrite map_map. reflexivity. Qed.

(** X2: with a working store, [markAllAsRead] leaves every stored record
    read and keeps ids and order, whatever the remote endpoint answers; a
    second call stores the same list again. *)
Theorem markAllAsRead_idempotent (E : Env) (w : World) :
  storeWorks E -> parsable w ->
  exists w1 w2,
    markAllAsRead E w = (Ok tt, w1) /\
    markAllAsRead E w1 = (Ok tt, w2) /\
    canonical w1 = map Notification.read (canonical w) /\
    canonical w2 = canonical w1 /\
    (forall n, In n (canonical w1) -> Notification.isRead n = true) /\
    ids (canonical w1) = ids (canonical w) /\
    unread (canonical w1) = 0%nat.
Proof.
  intros Hs Hp.
  assert (Hstep : forall v, parsable v ->
            exists v', markAllAsRead E v = (Ok tt, v') /\
                       canonical v' = map Notification.read (canonical v) /\
                       parsable v').
  { intros v Hv. rewrite markAllAsRead_update. unfold bind.
    destruct (markAllAsReadOnAPI_guarded E v) as (v1 & -> & Hu & _).
    destruct (parsable_untouched v v1 Hu Hv) as [Hp1 Hc1].
    rewrite (update_runs E _ v1 Hs Hp1).
    eexists. split; [reflexivity|]. cbn. rewrite Hc1.
    split; [reflexivity | discriminate]. }
  destruct (Hstep w Hp) as (w1 & Hr1 & Hc1 & Hp1).
  destruct (Hstep w1 Hp1) as (w2 & Hr2 & Hc2 & _).
  exists w1, w2. split; [exact Hr1|]. split; [exact Hr2|].
  split; [exact Hc1|]. split; [now rewrite Hc2, Hc1, read_idem|].
  rewrite Hc1. split; [|split].
  - intros n Hin. apply in_map_iff in Hin as (m & <- & _). reflexivity.
  - unfold ids. rewrite map_map. reflexivity.
  - unfold unread. clear. induction (canonical w) as [|n l IH];
      [reflexivity | exact IH].
Qed.

Lemma markAllAsRead_idempotent_witness :
  exists w1 w2,
    markAllAsRead steady stocked = (Ok tt, w1) /\
    markAllAsRead steady w1 = (Ok tt, w2) /\
    canonical w2 = canonical w1 /\
    map Notification.isRead (canonical w1) = [true; true; true].
Proof.
  destruct (markAllAsRead_idempotent steady stocked)
    as (w1 & w2 & H1 & H2 & Hc & Hsame & _);
    [intros k; repeat split | discriminate |].
  exists w1, w2. repeat split; auto. now rewrite Hc.
Defined.

(** ** Appending and listing *)

Lemma append_runs (E : Env) userId d (w : World) :
  storeWorks E -> parsable w ->
  append E userId d w =
  (Ok (created E userId d w), appended E (created E userId d w) w).
Proof.
  intros Hs Hp. rewrite append_spec.
  destruct (Hs (tick w)) as (-> & _ & _).
  destruct (Hs (3 + tick w)%nat) as (_ & -> & _).
  destruct (storage w) as [[l|]|] eqn:Hst; try reflexivity.
  now elim Hp.
Qed.

(** X3: with a working store, two appends one after the other leave the
    second record first, the first record second and the older records
    behind them; each created record is unread and carries the draft's
    fields, the targeted one the given [userId]; neither append sends a
    request or moves the debounce timestamp. *)
Theorem appends_stack_newest_first
        (E : Env) (w : World) (d1 d2 : Draft.t) (userId : string) :
  storeWorks E -> parsable w ->
  exists a b w1 w2,
    addNotification E d1 w = (Ok a, w1) /\
    addNotificationForUser E userId d2 w1 = (Ok b, w2) /\
    canonical w2 = b :: a :: canonical w /\
    a = fresh d1 (Notification.id a) (Notification.time a) (Draft.userId d1) /\
    b = fresh d2 (Notification.id b) (Notification.time b) (Some userId) /\
    Notification.isRead a = false /\ Notification.isRead b = false /\
    requests w2 = requests w /\
    lastApiCallTime w2 = lastApiCallTime w /\
    listeners w2 = listeners w.
Proof.
  intros Hs Hp.
  set (a := created E Draft.userId d1 w). set (w1 := appended E a w).
  assert (Hp1 : parsable w1) by discriminate.
  exists a, (created E (fun _ => Some userId) d2 w1), w1,
    (appended E (created E (fun _ => Some userId) d2 w1) w1).
  split; [rewrite addNotification_append; now apply append_runs|].
  split; [rewrite addNotificationForUser_append; now apply append_runs|].
  repeat split.
Qed.

Lemma appends_stack_newest_first_witness :
  exists a b w1 w2,
    addNotification steady hello stocked = (Ok a, w1) /\
    addNotificationForUser steady "5" hello w1 = (Ok b, w2) /\
    ids (canonical w2) = Notification.id b :: Notification.id a :: ["3"; "2"; "1"] /\
    Notification.userId a = None /\ Notification.userId b = Some "5".
Proof.
  destruct (appends_stack_newest_first steady stocked hello hello "5")
    as (a & b & w1 & w2 & Ha & Hb & Hc & Hfa & Hfb & _);
    [intros k; repeat split | discriminate |].
  exists a, b, w1, w2. split; [exact Ha|]. split; [exact Hb|].
  rewrite Hc. split; [reflexivity|].
  rewrite Hfa, Hfb. split; reflexivity.
Defined.

Lemma getNotifications_local (E : Env) (w : World) :
  fst (fetchNotificationsFromAPI E w) = Ok [] ->
  getItemFails E (tick (snd (fetchNotificationsFromAPI E w))) = false ->
  parsable w ->
  getNotifications E w =
  (Ok (filteredView (authUser E (S (tick (snd (fetchNotificationsFromAPI E w)))))
                    (canonical w)),
   bump (bump (snd (fetchNotificationsFromAPI E w)))).
Proof.
  intros Hf Hg Hp.
  destruct (fetch_frame E w) as (_ & _ & Hs & _).
  destruct (fetchNotificationsFromAPI E w) as [r w1] eqn:Hfw.
  cbn in *. subst r.
  unfold getNotifications. rewrite (try_bind_split _ _ _ _ _ _ Hfw).
  unfold try_catch, bind, getItem. cbn. rewrite Hg.
  unfold canonical, parsable in *. rewrite <- Hs.
  destruct (storage w1) as [[l|]|]; cbn;
    try (rewrite filter_returns; reflexivity).
  rewrite Hs in Hp. now elim Hp.
Qed.

(** X4: when the fetch yields nothing (inside the window, no identity or
    credential, a failed or empty response) and the store can be read,
    [getNotifications] returns the filtered view of the stored list and
    neither writes the store nor calls any listener. *)
Theorem list_falls_back_to_store (E : Env) (w : World) :
  fst (fetchNotificationsFromAPI E w) = Ok [] ->
  getItemFails E (tick (snd (fetchNotificationsFromAPI E w))) = false ->
  parsable w ->
  let w1 := snd (fetchNotificationsFromAPI E w) in
  getNotifications E w =
  (Ok (filteredView (authUser E (S (tick w1))) (canonical w)), bump (bump w1)) /\
  storage (snd (getNotifications E w)) = storage w /\
  delivered (snd (getNotifications E w)) = delivered w /\
  listeners (snd (getNotifications E w)) = listeners w.
Proof.
  intros Hf Hg Hp w1.
  destruct (fetch_frame E w) as (_ & Hl & Hs & Hd & _). fold w1 in Hl, Hs, Hd.
  rewrite (getNotifications_local E w Hf Hg Hp). fold w1. cbn.
  now repeat split.
Qed.

Lemma list_falls_back_to_store_witness :
  exists w',
    getNotifications signedOut stocked = (Ok three, w') /\
    storage w' = storage stocked /\ delivered w' = [].
Proof.
  destruct (list_falls_back_to_store signedOut stocked)
    as (Hrun & Hs & Hd & _); [reflexivity | reflexivity | discriminate |].
  eexists. split; [exact Hrun|]. rewrite Hrun in Hs, Hd. now split.
Defined.

Lemma saveNotifications_spec (E : Env) (ns : list Notification.t) (w : World) :
  saveNotifications E ns w =
  if setItemFails E (tick w) then (Ok tt, bump w)
  else (Ok tt,
        with_delivered (delivered w ++ map (fun l => (l, ns)) (listeners w))
                       (with_storage (Some (Json ns)) (bump w))).
Proof.
  unfold saveNotifications, try_catch, bind, setItem, notifyListeners.
  destruct (setItemFails E (tick w)); reflexivity.
Qed.

(** X5: a fetch that yields a non-empty list replaces the stored list with
    it (nothing of the old list is merged in) and calls each listener once
    with it; if the store rejects the write, the store and the listeners are
    left alone.  Either way the call returns the filtered view of the
    fetched list. *)
Theorem list_replaces_store_with_feed
        (E : Env) (w w1 : World) (l : list Notification.t) :
  fetchNotificationsFromAPI E w = (Ok l, w1) ->
  l <> [] ->
  exists w',
    getNotifications E w =
    (Ok (filteredView (authUser E (S (tick w1))) l), w') /\
    (setItemFails E (tick w1) = false ->
     canonical w' = l /\
     delivered w' = delivered w ++ map (fun x => (x, l)) (listeners w)) /\
    (setItemFails E (tick w1) = true ->
     storage w' = storage w /\ delivered w' = delivered w).
Proof.
  intros Hf Hne.
  pose proof (fetch_frame E w) as Hfr. rewrite Hf in Hfr. cbn in Hfr.
  destruct Hfr as (_ & Hl & Hs & Hd & _).
  unfold getNotifications. rewrite (try_bind_split _ _ _ _ _ _ Hf).
  destruct l as [|n l]; [now elim Hne|].
  unfold try_catch, bind. cbn [isEmpty negb].
  rewrite saveNotifications_spec.
  destruct (setItemFails E (tick w1)); rewrite filter_returns;
    eexists; (split; [reflexivity|]); cbn; split; intros H;
    try discriminate; rewrite ?Hl, ?Hs, ?Hd; now split.
Qed.

Lemma list_replaces_store_with_feed_witness :
  exists w',
    getNotifications steady stocked = (Ok [review7local], w') /\
    canonical w' = [review7local] /\
    delivered w' = [(4%nat, [review7local]); (9%nat, [review7local])].
Proof.
  destruct (list_replaces_store_with_feed steady stocked
              (snd (fetchNotificationsFromAPI steady stocked)) [review7local])
    as (w' & Hrun & Hok & _); [reflexivity | discriminate |].
  destruct (Hok eq_refl) as [Hc Hd].
  exists w'. split; [exact Hrun|]. split; [exact Hc | exact Hd].
Defined.

(** X6: a record appended with a working store comes back from the next
    [getNotifications] that falls back to the store: the call returns the
    new record followed by the older ones, as filtered by the identity
    lookup it makes right after reading the store.  The returned list holds
    the new record exactly when that lookup resolves no identity, fails, or
    resolves one that may see it. *)
Theorem append_then_list_round_trip
        (E : Env) (w w1 : World) (d : Draft.t) (n : Notification.t) :
  storeWorks E -> parsable w ->
  addNotification E d w = (Ok n, w1) ->
  fst (fetchNotificationsFromAPI E w1) = Ok [] ->
  let who := authUser E (S (tick (snd (fetchNotificationsFromAPI E w1)))) in
  n = fresh d (Notification.id n) (Notification.time n) (Draft.userId d) /\
  exists l,
    fst (getNotifications E w1) = Ok l /\
    l = filteredView who (n :: canonical w) /\
    (In n l <-> match who with
                | Ok (Some u) => visible u n = true
                | _ => True
                end).
Proof.
  intros Hs Hp Ha Hf.
  rewrite addNotification_append, (append_runs E _ d w Hs Hp) in Ha.
  injection Ha as <- <-.
  set (n := created E Draft.userId d w) in *.
  set (w1 := appended E n w) in *.
  assert (Hp1 : parsable w1) by discriminate.
  destruct (Hs (tick (snd (fetchNotificationsFromAPI E w1)))) as (Hg & _).
  intros who. split; [reflexivity|].
  rewrite (getNotifications_local E w1 Hf Hg Hp1). fold who.
  eexists. split; [reflexivity|]. split; [reflexivity|].
  destruct who as [[u|]|e]; cbn; try (split; auto; fail).
  destruct (visible u n) eqn:Hv.
  - split; [reflexivity | intros _; now left].
  - split; [|discriminate]. intros Hin.
    apply filter_In in Hin as [_ Hin]. congruence.
Qed.

Lemma append_then_list_round_trip_witness :
  let w := with_last 9000 mixed in
  let shown := created ownerHome Draft.userId hello w in
  let hidden := created ownerHome Draft.userId praise w in
  (addNotification ownerHome hello w = (Ok shown, appended ownerHome shown w) /\
   fst (getNotifications ownerHome (appended ownerHome shown w))
   = Ok [shown; plain "2" message "New Message" None None]) /\
  (addNotification ownerHome praise w = (Ok hidden, appended ownerHome hidden w) /\
   fst (getNotifications ownerHome (appended ownerHome hidden w))
   = Ok [plain "2" message "New Message" None None]).
Proof.
  intros w shown hidden. split.
  - split; [reflexivity|].
    destruct (append_then_list_round_trip ownerHome w
                (appended ownerHome shown w) hello shown)
      as (_ & l & Hl & -> & _);
      [intros k; repeat split | discriminate | reflexivity | reflexivity |].
    exact Hl.
  - split; [reflexivity|].
    destruct (append_then_list_round_trip ownerHome w
                (appended ownerHome hidden w) praise hidden)
      as (_ & l & Hl & -> & _);
      [intros k; repeat split | discriminate | reflexivity | reflexivity |].
    exact Hl.
Defined.

(** ** The remote feed *)

Lemma convertAll_all (l : list ApiNotif.t) (w : World) :
  (forall a, In a l -> ApiNotif.id a <> None) ->
  exists ns,
    convertAll l w = (Ok ns, w) /\
    Forall2 (fun a n => convert a = Some n) l ns.
Proof.
  induction l as [|a l IH]; intros Hall; cbn.
  - exists []. split; [reflexivity | constructor].
  - destruct (IH (fun b Hb => Hall b (or_intror Hb))) as (ns & Hrun & Hf).
    destruct (convert a) as [n|] eqn:Hc.
    + exists (n :: ns). unfold bind. rewrite Hrun.
      split; [reflexivity | now constructor].
    + exfalso. unfold convert in Hc.
      pose proof (Hall a (or_introl eq_refl)) as Ha.
      destruct (ApiNotif.id a); [discriminate | now elim Ha].
Qed.

Lemma convertAll_some_without_id (l : list ApiNotif.t) (w : World) :
  (exists a, In a l /\ ApiNotif.id a = None) ->
  convertAll l w = (Throw TypeError, w).
Proof.
  induction l as [|a l IH]; intros (b & Hin & Hb); [contradiction|].
  cbn. destruct (convert a) as [n|] eqn:Hc; [|reflexivity].
  destruct Hin as [->|Hin].
  - unfold convert in Hc. rewrite Hb in Hc. discriminate.
  - unfold bind. rewrite IH; [reflexivity | now exists b].
Qed.

Lemma convert_untargeted (a : ApiNotif.t) (n : Notification.t) :
  convert a = Some n ->
  Notification.userId n = None /\ Notification.avatar n = None /\
  Notification.action n = None /\
  Notification.time n = ApiNotif.created_at a /\
  Notification.isRead n = truthy (ApiNotif.read_at a).
Proof.
  unfold convert. destruct (ApiNotif.id a); [|discriminate].
  intros [= <-]. repeat split.
Qed.

(** The fetch up to the response, outside the window and with a
    credential. *)
Lemma fetch_sends (E : Env) (w : World) (u : User.t) (token : string) :
  apiCallDebounceMs <= dateNow E (tick w) - lastApiCallTime w ->
  authUser E (S (tick w)) = Ok (Some u) ->
  bearerToken u = Some token ->
  let sent := with_request (GetNotifications token)
                (bump (bump (with_last (dateNow E (tick w)) (bump w)))) in
  fetchNotificationsFromAPI E w =
  match apiResponse E (S (S (tick w))) with
  | Responded true (Some b) =>
      match notifications b with
      | Some l =>
          if success b then
            match convertAll l sent with
            | (Ok ns, _) => (Ok ns, sent)
            | (Throw _, _) => (Ok [], sent)
            end
          else (Ok [], sent)
      | None => (Ok [], sent)
      end
  | _ => (Ok [], sent)
  end.
Proof.
  intros H Hu Ht sent.
  unfold fetchNotificationsFromAPI, try_catch, bind, getDateNow, getLast.
  cbn. apply Z.ltb_ge in H. rewrite H.
  unfold setLast, getCurrentUser; cbn. rewrite Hu. cbn. rewrite Ht.
  unfold makeApiCall; cbn. fold sent.
  destruct (apiResponse E (S (S (tick w)))) as [|[] [b|]]; cbn; try reflexivity.
  destruct (notifications b) as [l|]; cbn; try reflexivity.
  destruct (success b); cbn; try reflexivity.
  pose proof (convertAll_world l sent) as Hw.
  destruct (convertAll l sent) as [[ns|e] w1]; cbn in *; now subst w1.
Qed.

(** X7: outside the window and with a credential, a usable response is
    converted element by element, in order: the id is rendered as a string,
    [time] is [created_at] as it came, [isRead] tells whether [read_at] is
    present, and no converted record carries a [userId].  One element
    without an id voids the whole feed.  Either way exactly one GET leaves
    with the bearer token, and the attempt is stamped. *)
Theorem fetch_converts_feed
        (E : Env) (w : World) (u : User.t) (token : string) (b : Body)
        (l : list ApiNotif.t) :
  apiCallDebounceMs <= dateNow E (tick w) - lastApiCallTime w ->
  authUser E (S (tick w)) = Ok (Some u) ->
  bearerToken u = Some token ->
  apiResponse E (S (S (tick w))) = Responded true (Some b) ->
  success b = true ->
  notifications b = Some l ->
  exists ns w',
    fetchNotificationsFromAPI E w = (Ok ns, w') /\
    requests w' = requests w ++ [GetNotifications token] /\
    lastApiCallTime w' = dateNow E (tick w) /\
    ((forall a, In a l -> ApiNotif.id a <> None) ->
     Forall2 (fun a n => convert a = Some n) l ns) /\
    ((exists a, In a l /\ ApiNotif.id a = None) -> ns = []) /\
    (forall n, In n ns ->
               Notification.userId n = None /\
               exists a, In a l /\
                         Notification.time n = ApiNotif.created_at a /\
                         Notification.isRead n = truthy (ApiNotif.read_at a)).
Proof.
  intros H Hu Ht Hr Hs Hl.
  rewrite (fetch_sends E w u token H Hu Ht), Hr, Hl, Hs.
  set (sent := with_request _ _).
  assert (Hcases : (forall a, In a l -> ApiNotif.id a <> None) \/
                   (exists a, In a l /\ ApiNotif.id a = None)).
  { clear. induction l as [|a l IH]; [left; intros a []|].
    destruct (ApiNotif.id a) eqn:Ha.
    - destruct IH as [IH|(b & Hb & Hn)].
      + left. intros c [<-|Hc]; [congruence | now apply IH].
      + right. exists b. split; [now right | exact Hn].
    - right. exists a. split; [now left | exact Ha]. }
  destruct Hcases as [Hall|Hsome].
  - destruct (convertAll_all l sent Hall) as (ns & -> & Hf).
    exists ns, sent. split; [reflexivity|]. split; [reflexivity|].
    split; [reflexivity|]. split; [intros _; exact Hf|]. split.
    + intros (a & Ha & Hn). now elim (Hall a Ha).
    + intros n Hn. clear -Hf Hn.
      induction Hf as [|a m l ns Hc _ IH]; [contradiction|].
      destruct Hn as [<-|Hn].
      * destruct (convert_untargeted a m Hc) as (Hu & _ & _ & Htm & Hrd).
        split; [exact Hu|]. exists a. split; [now left | now split].
      * destruct (IH Hn) as (Hu & a' & Ha' & Hrest).
        split; [exact Hu|]. exists a'. split; [now right | exact Hrest].
  - rewrite (convertAll_some_without_id l sent Hsome).
    exists [], sent. split; [reflexivity|]. split; [reflexivity|].
    split; [reflexivity|]. split.
    + intros Hall. destruct Hsome as (a & Ha & Hn). now elim (Hall a Ha).
    + split; [reflexivity | intros n []].
Qed.

Lemma fetch_converts_feed_witness :
  (exists w', fetchNotificationsFromAPI steady initial = (Ok [review7local], w')) /\
  (exists w', fetchNotificationsFromAPI brokenFeed initial = (Ok [], w') /\
              fetches w' = 1%nat).
Proof.
  split.
  - destruct (fetch_converts_feed steady initial sitter5
                "64|dTO5Gio05Om1Buxtkta02gVpvQnetCTMrofsLjeudda0034b"
                (mkBody true (Some [review7])) [review7])
      as (ns & w' & Hrun & _ & _ & Hall & _);
      try reflexivity; [vm_compute; discriminate|].
    exists w'. rewrite Hrun. f_equal. f_equal.
    assert (Hids : forall a, In a [review7] -> ApiNotif.id a <> None)
      by (intros a [<-|[]]; discriminate).
    specialize (Hall Hids).
    inversion Hall as [|a n l0 ns0 Hc Hrest]; subst.
    inversion Hrest; subst. cbn in Hc. now injection Hc as <-.
  - destruct (fetch_converts_feed brokenFeed initial sitter5
                "64|dTO5Gio05Om1Buxtkta02gVpvQnetCTMrofsLjeudda0034b"
                (mkBody true (Some [review7; anonymous])) [review7; anonymous])
      as (ns & w' & Hrun & Hreq & _ & _ & Hnone & _);
      try reflexivity; [vm_compute; discriminate|].
    exists w'. rewrite Hrun.
    rewrite Hnone by (exists anonymous; split; [right; now left | reflexivity]).
    split; [reflexivity|]. unfold fetches. now rewrite Hreq.
Defined.

(** X8: when the server cannot be used (no response, a status that is not
    ok, an unparsable body, [success] false or no [notifications]),
    [getNotifications] still returns the filtered view of the stored list;
    the one GET has left, the attempt is stamped, and neither the store nor
    the listeners are touched. *)
Theorem list_survives_failed_fetch
        (E : Env) (w : World) (u : User.t) (token : string) :
  apiCallDebounceMs <= dateNow E (tick w) - lastApiCallTime w ->
  authUser E (S (tick w)) = Ok (Some u) ->
  bearerToken u = Some token ->
  unusable (apiResponse E (S (S (tick w)))) ->
  getItemFails E (3 + tick w)%nat = false ->
  parsable w ->
  exists w',
    getNotifications E w =
    (Ok (filteredView (authUser E (4 + tick w)%nat) (canonical w)), w') /\
    requests w' = requests w ++ [GetNotifications token] /\
    lastApiCallTime w' = dateNow E (tick w) /\
    storage w' = storage w /\
    delivered w' = delivered w.
Proof.
  intros H Hu Ht Hr Hg Hp.
  assert (Hf : fetchNotificationsFromAPI E w =
               (Ok [], with_request (GetNotifications token)
                         (bump (bump (with_last (dateNow E (tick w)) (bump w)))))).
  { rewrite (fetch_sends E w u token H Hu Ht).
    destruct (apiResponse E (S (S (tick w)))) as [|[] [b|]]; cbn in Hr;
      try reflexivity.
    destruct Hr as [Hr|Hr]; rewrite Hr; [|reflexivity].
    now destruct (notifications b). }
  pose proof (getNotifications_local E w) as Hl. rewrite Hf in Hl.
  eexists. split; [apply Hl; auto|]. now repeat split.
Qed.

Lemma list_survives_failed_fetch_witness :
  exists w',
    getNotifications serverDown stocked = (Ok three, w') /\
    fetches w' = 1%nat /\
    storage w' = storage stocked.
Proof.
  destruct (list_survives_failed_fetch serverDown stocked sitter5
              "64|dTO5Gio05Om1Buxtkta02gVpvQnetCTMrofsLjeudda0034b")
    as (w' & Hrun & Hreq & _ & Hs & _);
    try first [reflexivity | exact I | discriminate | vm_compute; discriminate].
  exists w'. split; [exact Hrun|].
  split; [unfold fetches; now rewrite Hreq | exact Hs].
Defined.

(** ** The pet sitter rule *)

Lemma knownType_eqb (t : NotificationType) :
  NotificationType_eqb t booking || NotificationType_eqb t message ||
  NotificationType_eqb t review || NotificationType_eqb t system = true <->
  knownType t.
Proof.
  unfold knownType.
  rewrite !orb_true_iff, !NotificationType_eqb_eq. tauto.
Qed.

Lemma visible_sitter (u : User.t) (n : Notification.t) :
  isPetSitter u = true ->
  visible u n = true <->
  (truthy (Notification.userId n) = true /\
   Notification.userId n = Some (User.id u)) \/
  (truthy (Notification.userId n) = false /\
   knownType (Notification.type n)).
Proof.
  intros Hu. unfold visible. rewrite Hu.
  destruct (truthy (Notification.userId n)) eqn:Ht.
  - unfold fieldIs. destruct (Notification.userId n) as [x|]; [|discriminate].
    rewrite String.eqb_eq. split.
    + intros ->. now left.
    + intros [[_ [= ->]]|[H _]]; [reflexivity | discriminate].
  - rewrite knownType_eqb. split; [now right|].
    intros [[H _]|[_ H]]; [discriminate | exact H].
Qed.

(** X9: for a resolved pet sitter the filtered view holds exactly the
    records addressed to the sitter's id and the untargeted records whose
    type is one of the four the rule lists.  A record converted from the
    remote feed is therefore kept exactly when its type is one of the four:
    the conversion keeps whatever type string the server sent, and the
    sitter rule hides the others.  A list of untargeted records of the four
    types passes unchanged. *)
Theorem sitter_sees_all_but_foreign
        (E : Env) (w : World) (ns : list Notification.t) (u : User.t) :
  authUser E (tick w) = Ok (Some u) ->
  isPetSitter u = true ->
  exists view,
    fst (filterNotificationsByUserType E ns w) = Ok view /\
    (forall n, In n view <->
               In n ns /\
               ((truthy (Notification.userId n) = true /\
                 Notification.userId n = Some (User.id u)) \/
                (truthy (Notification.userId n) = false /\
                 knownType (Notification.type n)))) /\
    (forall a n, convert a = Some n -> In n ns ->
                 (In n view <-> knownType (Notification.type n))) /\
    ((forall n, In n ns -> Notification.userId n = None /\
                           knownType (Notification.type n)) ->
     view = ns).
Proof.
  intros Hu Hrole. rewrite filter_returns, Hu. cbn.
  exists (filter (visible u) ns). split; [reflexivity|].
  assert (Hiff : forall n, In n (filter (visible u) ns) <->
             In n ns /\
             ((truthy (Notification.userId n) = true /\
               Notification.userId n = Some (User.id u)) \/
              (truthy (Notification.userId n) = false /\
               knownType (Notification.type n)))).
  { intros n. rewrite filter_In, (visible_sitter u n Hrole). tauto. }
  split; [exact Hiff|]. split.
  - intros a n Hc Hin. rewrite Hiff.
    destruct (convert_untargeted a n Hc) as (Hnone & _).
    rewrite Hnone. cbn. split.
    + intros [_ [[H _]|[_ H]]]; [discriminate | exact H].
    + intros H. split; [exact Hin | now right].
  - intros Hall. induction ns as [|n ns IH]; [reflexivity|]. cbn.
    assert (Hv : visible u n = true).
    { apply visible_sitter; [exact Hrole|]. right.
      destruct (Hall n (or_introl eq_refl)) as [-> Hk]. now split. }
    rewrite Hv. f_equal. apply IH.
    + intros m. rewrite filter_In, (visible_sitter u m Hrole). tauto.
    + intros m Hm. apply Hall. now right.
Qed.

Lemma sitter_sees_all_but_foreign_witness :
  exists view,
    fst (filterNotificationsByUserType steady
           (plain "9" review "New Review Received" None (Some "21")
            :: plain "8" "payment" "Payment received" None None
            :: three)
           initial) = Ok view /\
    view = three.
Proof.
  destruct (sitter_sees_all_but_foreign steady initial
              (plain "9" review "New Review Received" None (Some "21")
               :: plain "8" "payment" "Payment received" None None
               :: three)
              sitter5)
    as (view & Hv & _); [reflexivity | reflexivity |].
  exists view. split; [exact Hv|].
  cbn in Hv. now injection Hv as <-.
Defined.

(** ** What each operation leaves alone *)

Section Traffic.

Variable E : Env.

Lemma noFetch_refl w : noFetch w w.
Proof. now split. Qed.

Lemma noFetch_trans a b c : noFetch a b -> noFetch b c -> noFetch a c.
Proof. unfold noFetch. intros [-> ->] [-> ->]. now split. Qed.

Lemma noPut_refl w : noPut w w.
Proof. reflexivity. Qed.

Lemma noPut_trans a b c : noPut a b -> noPut b c -> noPut a c.
Proof. unfold noPut. now intros -> ->. Qed.

Lemma sameListeners_refl w : sameListeners w w.
Proof. reflexivity. Qed.

Lemma sameListeners_trans a b c :
  sameListeners a b -> sameListeners b c -> sameListeners a c.
Proof. unfold sameListeners. now intros -> ->. Qed.

Lemma staysParsable_refl w : staysParsable w w.
Proof. now intros H. Qed.

Lemma staysParsable_trans a b c :
  staysParsable a b -> staysParsable b c -> staysParsable a c.
Proof. unfold staysParsable. auto. Qed.

Ltac unfold_ops :=
  cbn [perform]; unfold getUnreadCount;
  unfold getNotifications, refreshNotifications, fetchNotificationsFromAPI,
    addNotification, addNotificationForUser, markAsRead, markAllAsRead,
    deleteNotification, clearAllNotifications, saveNotifications, json,
    markAsReadOnAPI, markAllAsReadOnAPI, filterNotificationsByUserType,
    parseStored.

Lemma local_quiet (o : Op) : isLocal o = true -> respects quiet (perform E o).
Proof.
  destruct o; intros Ho; try discriminate; unfold_ops;
    frame quiet_refl quiet_trans fail ltac:(now split).
Qed.

Lemma mark_noFetch (o : Op) : isMark o = true -> respects noFetch (perform E o).
Proof.
  destruct o; intros Ho; try discriminate; unfold_ops;
    frame noFetch_refl noFetch_trans fail
          ltac:(unfold noFetch, fetches; cbn;
                rewrite ?filter_app, ?length_app; cbn; split; lia).
Qed.

Lemma listing_noPut (o : Op) : isListing o = true -> respects noPut (perform E o).
Proof.
  destruct o; intros Ho; try discriminate; unfold_ops;
    frame noPut_refl noPut_trans fail
          ltac:(unfold noPut, puts; cbn;
                rewrite ?filter_app, ?length_app; cbn; lia).
Qed.

Lemma service_sameListeners (o : Op) :
  isSubscription o = false -> respects sameListeners (perform E o).
Proof.
  destruct o; intros Ho; try discriminate; unfold_ops;
    frame sameListeners_refl sameListeners_trans fail ltac:(reflexivity).
Qed.

Lemma perform_staysParsable (o : Op) : respects staysParsable (perform E o).
Proof.
  destruct o; unfold_ops;
    frame staysParsable_refl staysParsable_trans fail
          ltac:(unfold staysParsable, parsable; cbn;
                first [discriminate | auto]).
Qed.

End Traffic.

(** X10: appends, [deleteNotification], [clearAllNotifications] and the
    subscription calls never send a request and never move the debounce
    timestamp; the two read-mark operations never send a feed request and
    never move the timestamp; the listing operations never send a read-mark
    request.  This holds for every behaviour of the collaborators, whether
    the operation returns or raises. *)
Theorem remote_traffic_by_operation (E : Env) (o : Op) (w : World) :
  (isLocal o = true ->
   requests (exec E o w) = requests w /\
   lastApiCallTime (exec E o w) = lastApiCallTime w) /\
  (isMark o = true ->
   fetches (exec E o w) = fetches w /\
   lastApiCallTime (exec E o w) = lastApiCallTime w) /\
  (isListing o = true -> puts (exec E o w) = puts w).
Proof.
  split; [|split]; intros Ho.
  - destruct (local_quiet E o Ho w) as [Hl Hr]. now split.
  - exact (mark_noFetch E o Ho w).
  - exact (listing_noPut E o Ho w).
Qed.

Lemma remote_traffic_by_operation_witness :
  requests (exec steady (OpAppend hello) stocked) = [] /\
  fetches (exec steady (OpMarkRead "2") stocked) = 0%nat /\
  puts (exec steady (OpMarkRead "2") stocked) = 1%nat /\
  puts (exec steady OpList stocked) = 0%nat /\
  fetches (exec steady OpList stocked) = 1%nat.
Proof.
  split; [|split; [|split; [|split]]].
  - apply (remote_traffic_by_operation steady (OpAppend hello) stocked).
    reflexivity.
  - apply (remote_traffic_by_operation steady (OpMarkRead "2") stocked).
    reflexivity.
  - reflexivity.
  - apply (remote_traffic_by_operation steady OpList stocked). reflexivity.
  - reflexivity.
Defined.

(** X11: the listener list changes only through [subscribe] and the
    closures it returns: any sequence of the other operations, returning or
    raising, leaves it as it was. *)
Theorem listeners_change_only_by_subscription
        (E : Env) (ops : list Op) (w : World) :
  forallb (fun o => negb (isSubscription o)) ops = true ->
  listeners (run E ops w) = listeners w.
Proof.
  revert w; induction ops as [|o ops IH]; intros w Hops; [reflexivity|].
  cbn in Hops.
  apply andb_true_iff in Hops as [Ho Hops]. apply negb_true_iff in Ho.
  change (listeners (run E ops (exec E o w)) = listeners w).
  rewrite (IH _ Hops). exact (service_sameListeners E o Ho w).
Qed.

Lemma listeners_change_only_by_subscription_witness :
  listeners (run storeDown [OpAppend hello; OpRefresh; OpClearAll; OpMarkAllRead]
                 stocked) = [4; 9]%nat.
Proof.
  apply (listeners_change_only_by_subscription storeDown
           [OpAppend hello; OpRefresh; OpClearAll; OpMarkAllRead] stocked).
  reflexivity.
Defined.

(** X12: no operation ever leaves unparsable text in the store: every write
    is a serialized list and [clearAllNotifications] removes the key, so a
    store that parses keeps parsing along any sequence of operations. *)
Theorem store_stays_parsable (E : Env) (ops : list Op) (w : World) :
  parsable w -> parsable (run E ops w).
Proof.
  revert w; induction ops as [|o ops IH]; intros w Hp; [exact Hp|].
  change (parsable (run E ops (exec E o w))).
  apply IH. exact (perform_staysParsable E o w Hp).
Qed.

Lemma store_stays_parsable_witness :
  parsable (run steady [OpList; OpAppend hello; OpDelete "7"; OpClearAll] stocked).
Proof.
  apply (store_stays_parsable steady). discriminate.
Defined.

(** ** A store that does not parse *)

(** X13: while the stored text does not parse (and the store answers),
    every append, read mark and delete raises the parse error and writes
    nothing; [getNotifications] does not raise but returns the empty list
    when the remote endpoint yields nothing; [clearAllNotifications] removes
    the text, after which the store parses again. *)
Theorem corrupt_store_blocks_updates (E : Env) (w : World) :
  storage w = Some Malformed ->
  (forall k, getItemFails E k = false /\ removeItemFails E k = false) ->
  (forall o, isMutation o = true -> o <> OpClearAll ->
             fst (perform E o w) = Throw SyntaxError /\
             storage (exec E o w) = Some Malformed /\
             delivered (exec E o w) = delivered w) /\
  (fst (fetchNotificationsFromAPI E w) = Ok [] ->
   fst (getNotifications E w) = Ok []) /\
  (fst (clearAllNotifications E w) = Ok tt /\
   storage (exec E OpClearAll w) = None).
Proof.
  intros Hbad Hstore.
  assert (Hg : forall k, getItemFails E k = false) by (intros k; apply Hstore).
  assert (Hupd : forall f v, storage v = Some Malformed ->
                             update E f v = (Throw SyntaxError, bump v)).
  { intros f v Hv. now rewrite update_spec, Hg, Hv. }
  assert (Happ : forall uid d, append E uid d w = (Throw SyntaxError, bump w)).
  { intros uid d. now rewrite append_spec, Hg, Hbad. }
  split; [|split].
  - intros o Ho Hnot. unfold exec.
    destruct o; try discriminate; cbn [perform].
    + rewrite addNotification_append. unfold bind. rewrite Happ. now cbn.
    + rewrite addNotificationForUser_append. unfold bind. rewrite Happ. now cbn.
    + rewrite markAsRead_update. unfold bind.
      destruct (markAsReadOnAPI_guarded E notificationId w)
        as (w1 & -> & (Hs & Hd & _) & _).
      rewrite Hupd by now rewrite Hs. cbn. now rewrite Hs, Hd.
    + rewrite markAllAsRead_update. unfold bind.
      destruct (markAllAsReadOnAPI_guarded E w)
        as (w1 & -> & (Hs & Hd & _) & _).
      rewrite Hupd by now rewrite Hs. cbn. now rewrite Hs, Hd.
    + rewrite deleteNotification_update, Hupd by exact Hbad. now cbn.
    + now elim Hnot.
  - intros Hf.
    destruct (fetch_frame E w) as (_ & _ & Hs & _).
    destruct (fetchNotificationsFromAPI E w) as [r w1] eqn:Hfw.
    cbn in Hf, Hs. subst r.
    unfold getNotifications. rewrite (try_bind_split _ _ _ _ _ _ Hfw).
    unfold try_catch, bind, getItem. cbn. rewrite Hg, Hs, Hbad. cbn.
    rewrite Hg. cbn. now rewrite Hs, Hbad.
  - unfold exec, perform, clearAllNotifications, bind, removeItem.
    destruct (Hstore (tick w)) as [_ ->]. now split.
Qed.

Lemma corrupt_store_blocks_updates_witness :
  fst (perform signedOut (OpDelete "2") garbled) = Throw SyntaxError /\
  fst (getNotifications signedOut garbled) = Ok [] /\
  storage (exec signedOut OpClearAll garbled) = None.
Proof.
  destruct (corrupt_store_blocks_updates signedOut garbled)
    as (Hm & Hl & _ & Hc); [reflexivity | intros k; now split |].
  split; [apply (Hm (OpDelete "2")); [reflexivity | discriminate]|].
  split; [apply Hl; reflexivity | exact Hc].
Defined.

(** ** Clearing, counting, refreshing *)

(** X14: when the store accepts the removal, [clearAllNotifications]
    removes the key and calls every listener once with the empty list; a
    following [getNotifications] for which the remote endpoint yields
    nothing returns the empty list without calling the listeners again, and
    the unread count is zero. *)
Theorem clearAll_empties_and_broadcasts (E : Env) (w : World) :
  removeItemFails E (tick w) = false ->
  exists w',
    clearAllNotifications E w = (Ok tt, w') /\
    storage w' = None /\
    delivered w' = delivered w ++ map (fun l => (l, [])) (listeners w) /\
    listeners w' = listeners w /\
    requests w' = requests w /\
    (fst (fetchNotificationsFromAPI E w') = Ok [] ->
     getItemFails E (tick (snd (fetchNotificationsFromAPI E w'))) = false ->
     fst (getNotifications E w') = Ok [] /\
     fst (getUnreadCount E w') = Ok 0%nat /\
     delivered (snd (getNotifications E w')) = delivered w').
Proof.
  intros Hr. unfold clearAllNotifications, bind, removeItem, notifyListeners.
  rewrite Hr. eexists. split; [reflexivity|]. cbn.
  repeat (split; [reflexivity|]).
  intros Hf Hg.
  set (w' := with_delivered _ _) in *.
  assert (Hp : parsable w') by discriminate.
  pose proof (getNotifications_local E w' Hf Hg Hp) as Hl.
  destruct (fetch_frame E w') as (_ & _ & _ & Hd & _).
  unfold getUnreadCount, bind. rewrite Hl. cbn.
  assert (Hnil : forall who, filteredView who [] = [])
    by (intros [[u|]|e]; reflexivity).
  rewrite Hnil. now repeat split.
Qed.

Lemma clearAll_empties_and_broadcasts_witness :
  exists w',
    clearAllNotifications signedOut stocked = (Ok tt, w') /\
    delivered w' = [(4%nat, []); (9%nat, [])] /\
    fst (getNotifications signedOut w') = Ok [].
Proof.
  destruct (clearAll_empties_and_broadcasts signedOut stocked)
    as (w' & Hrun & _ & Hd & _ & _ & Hnext); [reflexivity|].
  exists w'. split; [exact Hrun|]. split; [exact Hd|].
  injection Hrun as <-. apply Hnext; reflexivity.
Defined.

Lemma unread_filter (p : Notification.t -> bool) (ns : list Notification.t) :
  (unread (filter p ns) <= unread ns)%nat.
Proof.
  unfold unread. induction ns as [|n ns IH]; cbn; [lia|].
  destruct (p n); cbn; destruct (negb (Notification.isRead n)); cbn; lia.
Qed.

Lemma unread_all_read (ns : list Notification.t) :
  (forall n, In n ns -> Notification.isRead n = true) -> unread ns = 0%nat.
Proof.
  unfold unread. induction ns as [|n ns IH]; cbn; intros Hall; [reflexivity|].
  rewrite (Hall n (or_introl eq_refl)). cbn.
  apply IH. intros m Hm. apply Hall. now right.
Qed.

(** X15: when [getNotifications] falls back to the store, [getUnreadCount]
    is the number of unread records in the stored list as filtered by the
    identity lookup the call makes right after reading the store: records
    hidden from that identity are not counted, so the count is at most the
    number of unread stored records, and it is zero when every stored record
    is read. *)
Theorem unread_count_on_local_path (E : Env) (w : World) :
  fst (fetchNotificationsFromAPI E w) = Ok [] ->
  getItemFails E (tick (snd (fetchNotificationsFromAPI E w))) = false ->
  parsable w ->
  let who := authUser E (S (tick (snd (fetchNotificationsFromAPI E w)))) in
  exists n,
    fst (getUnreadCount E w) = Ok n /\
    n = unread (filteredView who (canonical w)) /\
    (n <= unread (canonical w))%nat /\
    ((forall m, In m (canonical w) -> Notification.isRead m = true) ->
     n = 0%nat).
Proof.
  intros Hf Hg Hp who.
  unfold getUnreadCount, bind. rewrite (getNotifications_local E w Hf Hg Hp).
  cbn. eexists. split; [reflexivity|]. split; [reflexivity|].
  fold (unread (filteredView
                  (authUser E (S (tick (snd (fetchNotificationsFromAPI E w)))))
                  (canonical w))).
  assert (Hle : forall who,
             (unread (filteredView who (canonical w)) <= unread (canonical w))%nat).
  { intros [[u|]|e]; unfold filteredView;
      first [apply unread_filter | apply Nat.le_refl]. }
  split; [apply Hle|].
  intros Hall. pose proof (unread_all_read _ Hall).
  specialize (Hle (authUser E (S (tick (snd (fetchNotificationsFromAPI E w)))))).
  lia.
Qed.

Lemma unread_count_on_local_path_witness :
  unread (canonical mixed) = 3%nat /\
  fst (getUnreadCount ownerHome (with_last 9000 mixed)) = Ok 1%nat /\
  fst (getUnreadCount lateSignIn (with_last 9000 mixed)) = Ok 3%nat.
Proof.
  split; [reflexivity|]. split.
  - destruct (unread_count_on_local_path ownerHome (with_last 9000 mixed))
      as (n & Hn & -> & _); [reflexivity | reflexivity | discriminate |].
    exact Hn.
  - destruct (unread_count_on_local_path lateSignIn (with_last 9000 mixed))
      as (n & Hn & -> & _); [reflexivity | reflexivity | discriminate |].
    exact Hn.
Defined.

(** X16: [refreshNotifications] does not depend on the debounce timestamp
    it finds: started from any timestamp it behaves the same.  When the
    clock reads at least 3000 it attempts the fetch and stamps the reading;
    when the clock reads less than 3000 even a refresh is debounced and
    sends nothing. *)
Theorem refresh_ignores_timestamp (E : Env) (w : World) (t : Z) :
  refreshNotifications E (with_last t w) = refreshNotifications E w /\
  (apiCallDebounceMs <= dateNow E (tick w) ->
   lastApiCallTime (snd (refreshNotifications E w)) = dateNow E (tick w)) /\
  (dateNow E (tick w) < apiCallDebounceMs ->
   requests (snd (refreshNotifications E w)) = requests w /\
   lastApiCallTime (snd (refreshNotifications E w)) = 0).
Proof.
  split; [reflexivity|].
  assert (Hsnd : snd (refreshNotifications E w)
                 = snd (getNotifications E (with_last 0 w))).
  { destruct (refresh_agrees_or_raises E w) as [->|(e & w' & -> & ->)];
      reflexivity. }
  rewrite Hsnd. split; intros Hnow.
  - apply (getNotifications_attempt E (with_last 0 w)). cbn. lia.
  - destruct (getNotifications_debounced E (with_last 0 w)) as [Hl Hr];
      [cbn; lia|]. now split.
Qed.

Lemma refresh_ignores_timestamp_witness :
  refreshNotifications steady (with_last 9999 stocked)
  = refreshNotifications steady stocked /\
  lastApiCallTime (snd (refreshNotifications steady stocked)) = 10000.
Proof.
  destruct (refresh_ignores_timestamp steady stocked 9999) as (Heq & Hat & _).
  split; [exact Heq|]. apply Hat. vm_compute. discriminate.
Defined.

(** ** Deleting *)

Lemma filter_out_idem (notificationId : string) (ns : list Notification.t) :
  let keep := fun n => negb (Notification.id n =? notificationId)%string in
  filter keep (filter keep ns) = filter keep ns.
Proof.
  intros keep. induction ns as [|n ns IH]; cbn; [reflexivity|].
  destruct (keep n) eqn:Hk; cbn; [rewrite Hk, IH|]; auto.
Qed.

Lemma filter_out_absent (notificationId : string) (ns : list Notification.t) :
  ~ In notificationId (ids ns) ->
  filter (fun n => negb (Notification.id n =? notificationId)%string) ns = ns.
Proof.
  induction ns as [|n ns IH]; cbn; intros Hno; [reflexivity|].
  destruct (String.eqb_spec (Notification.id n) notificationId) as [He|Hne]; cbn.
  - elim Hno. now left.
  - f_equal. apply IH. intros Hin. apply Hno. now right.
Qed.

(** X17: with a working store, deleting the id an append has just returned
    removes the new record together with every older record that carries
    the same id; when the id was not in the list before, the stored list is
    back to what it was before the append. *)
Theorem delete_undoes_append
        (E : Env) (w w1 : World) (d : Draft.t) (n : Notification.t) :
  storeWorks E -> parsable w ->
  addNotification E d w = (Ok n, w1) ->
  exists w2,
    deleteNotification E (Notification.id n) w1 = (Ok tt, w2) /\
    canonical w2 =
    filter (fun m => negb (Notification.id m =? Notification.id n)%string)
           (canonical w) /\
    (~ In (Notification.id n) (ids (canonical w)) -> canonical w2 = canonical w).
Proof.
  intros Hs Hp Ha.
  rewrite addNotification_append, (append_runs E _ d w Hs Hp) in Ha.
  injection Ha as <- <-.
  set (n := created E Draft.userId d w).
  assert (Hp1 : parsable (appended E n w)) by discriminate.
  rewrite deleteNotification_update, (update_runs E _ _ Hs Hp1).
  eexists. split; [reflexivity|]. cbn. rewrite String.eqb_refl. cbn.
  split; [reflexivity|]. apply filter_out_absent.
Qed.

Lemma delete_undoes_append_witness :
  let n := created steady Draft.userId hello stocked in
  exists w2,
    deleteNotification steady (Notification.id n) (appended steady n stocked)
    = (Ok tt, w2) /\
    canonical w2 = three.
Proof.
  intros n.
  destruct (delete_undoes_append steady stocked (appended steady n stocked) hello n)
    as (w2 & Hrun & _ & Hback);
    [intros k; repeat split | discriminate | reflexivity |].
  exists w2. split; [exact Hrun|]. apply Hback.
  cbn. intros [H|[H|[H|[]]]]; discriminate.
Defined.

(** X18: with a working store, a second [deleteNotification] of the same id
    stores the same list as the first, and after the first no stored record
    carries the id. *)
Theorem delete_is_idempotent (E : Env) (w : World) (notificationId : string) :
  storeWorks E -> parsable w ->
  exists w1 w2,
    deleteNotification E notificationId w = (Ok tt, w1) /\
    deleteNotification E notificationId w1 = (Ok tt, w2) /\
    canonical w2 = canonical w1 /\
    ~ In notificationId (ids (canonical w1)).
Proof.
  intros Hs Hp.
  set (f := filter (fun n => negb (Notification.id n =? notificationId)%string)).
  assert (Hp1 : parsable (updated E f w)) by discriminate.
  exists (updated E f w), (updated E f (updated E f w)).
  split; [rewrite deleteNotification_update; now apply update_runs|].
  split; [rewrite deleteNotification_update; now apply update_runs|].
  cbn. split.
  - apply filter_out_idem.
  - unfold ids. intros Hin. apply in_map_iff in Hin as (n & Hid & Hin).
    apply filter_In in Hin as [_ Hk]. rewrite Hid, String.eqb_refl in Hk.
    discriminate.
Qed.

Lemma delete_is_idempotent_witness :
  exists w1 w2,
    deleteNotification steady "2" stocked = (Ok tt, w1) /\
    deleteNotification steady "2" w1 = (Ok tt, w2) /\
    canonical w2 = canonical w1.
Proof.
  destruct (delete_is_idempotent steady stocked "2")
    as (w1 & w2 & H1 & H2 & Hc & _); [intros k; repeat split | discriminate |].
  now exists w1, w2.
Defined.

(** ** The notification builders *)

Lemma length_append (a b : string) :
  String.length (a ++ b)%string = (String.length a + String.length b)%nat.
Proof. induction a as [|c a IH]; cbn; [reflexivity | now rewrite IH]. Qed.

Lemma isAscii_append (a b : string) :
  isAscii (a ++ b)%string = isAscii a && isAscii b.
Proof.
  induction a as [|c a IH]; cbn; [reflexivity|].
  now rewrite IH, andb_assoc.
Qed.

Lemma substring_all (m : nat) (s : string) :
  (String.length s <= m)%nat -> String.substring 0 m s = s.
Proof.
  revert s; induction m as [|m IH]; intros [|c s]; cbn; intros H;
    try reflexivity; [lia|].
  rewrite IH; [reflexivity | lia].
Qed.

Lemma substring_head (m : nat) (s : string) :
  (m <= String.length s)%nat ->
  String.length (String.substring 0 m s) = m /\
  exists rest, s = (String.substring 0 m s ++ rest)%string.
Proof.
  revert s; induction m as [|m IH]; intros [|c s]; cbn; intros H.
  - split; [reflexivity | now exists EmptyString].
  - split; [reflexivity | now exists (String c s)].
  - lia.
  - destruct (IH s) as (Hl & rest & Hr); [lia|].
    split; [now rewrite Hl|]. exists rest. now rewrite <- Hr.
Qed.

Lemma visible_message (u : User.t) (n : Notification.t) :
  Notification.userId n = None -> Notification.type n = message ->
  visible u n = true.
Proof.
  intros Hu Ht. unfold visible, isMessageOrSystem. rewrite Hu, Ht. cbn.
  destruct (isPetSitter u); [reflexivity | apply orb_true_r].
Qed.

(** X19: with a working store, and a sender name and a message of ASCII
    characters, [createMessageNotification] stores an untargeted message
    record that every identity may see.  Its text is the sender, [": "] and
    a preview: the whole message when it has at most 50 characters, else
    its first 50 characters followed by ["..."].  The preview has at most
    53 characters and the text is ASCII again; the record's [data] carries
    the message in full. *)
Theorem message_notification_preview
        (E : Env) (w : World) (md : MessageData.t) :
  storeWorks E -> parsable w ->
  isAscii (MessageData.senderName md) = true ->
  isAscii (MessageData.message md) = true ->
  let sender := MessageData.senderName md in
  let text := MessageData.message md in
  exists n w1,
    createMessageNotification E md w = (Ok n, w1) /\
    canonical w1 = n :: canonical w /\
    Notification.type n = message /\
    Notification.userId n = None /\
    (forall u, visible u n = true) /\
    ((String.length text <= 50)%nat ->
     Notification.message n = (sender ++ ": " ++ text)%string) /\
    ((50 < String.length text)%nat ->
     exists head rest,
       text = (head ++ rest)%string /\ String.length head = 50%nat /\
       Notification.message n = (sender ++ ": " ++ head ++ "...")%string) /\
    (exists preview,
        Notification.message n = (sender ++ ": " ++ preview)%string /\
        (String.length preview <= 53)%nat /\
        isAscii (Notification.message n) = true) /\
    (exists o, Notification.data n = Some o /\ field "message" o = Some (JStr text)).
Proof.
  intros Hs Hp Hname Hascii sender text.
  unfold createMessageNotification.
  match goal with
  | |- context [addNotification E ?d] => set (D := d)
  end.
  rewrite addNotification_append, (append_runs E _ D w Hs Hp).
  exists (created E Draft.userId D w),
    (appended E (created E Draft.userId D w) w).
  split; [reflexivity|]. split; [reflexivity|].
  split; [reflexivity|]. split; [reflexivity|].
  split; [intros u; now apply visible_message|].
  change (Notification.message (created E Draft.userId D w))
    with (sender ++ ": " ++ String.substring 0 50 text
          ++ (if (50 <? String.length text)%nat then "..." else ""))%string.
  destruct (Nat.ltb_spec 50 (String.length text)) as [Hlt|Hle].
  - destruct (substring_head 50 text) as (Hl & rest & Hr); [lia|].
    split; [intros H; lia|]. split.
    + intros _. exists (String.substring 0 50 text), rest. now repeat split.
    + split; [|eexists; split; reflexivity].
      eexists. split; [reflexivity|].
      rewrite length_append, Hl. split; [cbn; lia|].
      fold text in Hascii. rewrite Hr, isAscii_append in Hascii.
      apply andb_true_iff in Hascii as [Hh _].
      fold sender in Hname.
      rewrite !isAscii_append, Hname, Hh. reflexivity.
  - rewrite (substring_all 50 text Hle).
    assert (Hnil : (text ++ "")%string = text)
      by (clear; induction text; cbn; congruence).
    split.
    + intros _. now rewrite Hnil.
    + split; [intros H; lia|].
      split; [|eexists; split; reflexivity].
      exists text. rewrite Hnil. split; [reflexivity|]. split; [lia|].
      fold sender in Hname. fold text in Hascii.
      rewrite !isAscii_append, Hname, Hascii. reflexivity.
Qed.

Lemma message_notification_preview_witness :
  exists n w1,
    createMessageNotification steady longMessage stocked = (Ok n, w1) /\
    Notification.title n = "New Message (Booking Related)" /\
    Notification.message n
    = "Mike Wilson: Hi! I have a few questions about the booking. Can ..." /\
    visible owner1 n = true.
Proof.
  destruct (message_notification_preview steady stocked longMessage)
    as (n & w1 & Hrun & _ & _ & _ & Hv & _);
    [intros k; repeat split | discriminate | reflexivity | reflexivity |].
  exists n, w1. split; [exact Hrun|].
  vm_compute in Hrun. injection Hrun as <- _.
  split; [reflexivity|]. split; [reflexivity | apply Hv].
Defined.

(** X20: with a working store, [createBookingConfirmationNotification]
    stores a booking record addressed to the pet owner, titled
    ["Booking Confirmed"] or ["Booking Cancelled"], with the decision in
    [data.status].  For a non-empty owner id the record is visible to the
    identity with that id and to nobody else, whatever their role. *)
Theorem booking_decision_reaches_owner_only
        (E : Env) (w : World) (bd : BookingDecision.t) :
  storeWorks E -> parsable w ->
  BookingDecision.petOwnerId bd <> "" ->
  exists n w1,
    createBookingConfirmationNotification E bd w = (Ok n, w1) /\
    canonical w1 = n :: canonical w /\
    Notification.type n = booking /\
    Notification.userId n = Some (BookingDecision.petOwnerId bd) /\
    status n = Some (statusString (BookingDecision.status bd)) /\
    Notification.title n =
    match BookingDecision.status bd with
    | StatusConfirmed => "Booking Confirmed"
    | StatusCancelled => "Booking Cancelled"
    end /\
    (forall u, visible u n = true <->
               User.id u = BookingDecision.petOwnerId bd) /\
    requests w1 = requests w.
Proof.
  intros Hs Hp Hid.
  unfold createBookingConfirmationNotification.
  match goal with
  | |- context [addNotificationForUser E ?i ?d] => set (D := d)
  end.
  rewrite addNotificationForUser_append, (append_runs E _ D w Hs Hp).
  set (n := created E (fun _ => Some (BookingDecision.petOwnerId bd)) D w).
  exists n, (appended E n w). split; [reflexivity|].
  split; [reflexivity|]. split; [reflexivity|]. split; [reflexivity|].
  split; [now destruct (BookingDecision.status bd)|].
  split; [now destruct (BookingDecision.status bd)|].
  split; [|reflexivity].
  intros u.
  rewrite (visible_targeted u n (BookingDecision.petOwnerId bd) eq_refl Hid).
  rewrite String.eqb_eq. split; congruence.
Qed.

Lemma booking_decision_reaches_owner_only_witness :
  exists n w1,
    createBookingConfirmationNotification steady decision stocked = (Ok n, w1) /\
    Notification.title n = "Booking Cancelled" /\
    visible owner1 n = true /\
    visible sitter5 n = false.
Proof.
  destruct (booking_decision_reaches_owner_only steady stocked decision)
    as (n & w1 & Hrun & _ & _ & _ & _ & Ht & Hv & _);
    [intros k; repeat split | discriminate | discriminate |].
  exists n, w1. split; [exact Hrun|]. split; [exact Ht|]. split.
  - apply Hv. reflexivity.
  - destruct (visible sitter5 n) eqn:Hs; [|reflexivity].
    apply Hv in Hs. discriminate.
Defined.

(** X21: with a working store, [createBookingNotification] stores a booking
    record addressed to the sitter, with no [data.status].  For a non-empty
    sitter id it is visible to the identity with that id and to nobody else;
    the role rule for pet owners would not show it either. *)
Theorem booking_request_reaches_sitter_only
        (E : Env) (w : World) (br : BookingRequest.t) :
  storeWorks E -> parsable w ->
  BookingRequest.sitterId br <> "" ->
  exists n w1,
    createBookingNotification E br w = (Ok n, w1) /\
    canonical w1 = n :: canonical w /\
    Notification.type n = booking /\
    Notification.title n = "New Booking Request" /\
    Notification.userId n = Some (BookingRequest.sitterId br) /\
    status n = None /\
    (forall u, visible u n = true <-> User.id u = BookingRequest.sitterId br) /\
    ~ ownerSees n /\
    requests w1 = requests w.
Proof.
  intros Hs Hp Hid.
  unfold createBookingNotification.
  match goal with
  | |- context [addNotificationForUser E ?i ?d] => set (D := d)
  end.
  rewrite addNotificationForUser_append, (append_runs E _ D w Hs Hp).
  set (n := created E (fun _ => Some (BookingRequest.sitterId br)) D w).
  exists n, (appended E n w). split; [reflexivity|].
  split; [reflexivity|]. split; [reflexivity|]. split; [reflexivity|].
  split; [reflexivity|]. split; [reflexivity|]. split; [|split; [|reflexivity]].
  - intros u.
    rewrite (visible_targeted u n (BookingRequest.sitterId br) eq_refl Hid).
    rewrite String.eqb_eq. split; congruence.
  - unfold ownerSees.
    change (Notification.type n) with booking.
    change (Notification.title n) with "New Booking Request".
    change (status n) with (@None string).
    intros [H|[H|(_ & [H|[H|[H|H]]])]]; try discriminate;
      apply includes_spec in H; discriminate.
Qed.

Lemma booking_request_reaches_sitter_only_witness :
  exists n w1,
    createBookingNotification steady request stocked = (Ok n, w1) /\
    visible sitter5 n = true /\
    visible owner1 n = false.
Proof.
  destruct (booking_request_reaches_sitter_only steady stocked request)
    as (n & w1 & Hrun & _ & _ & _ & _ & _ & Hv & _);
    [intros k; repeat split | discriminate | discriminate |].
  exists n, w1. split; [exact Hrun|]. split.
  - apply Hv. reflexivity.
  - destruct (visible owner1 n) eqn:Ho; [|reflexivity].
    apply Hv in Ho. discriminate.
Defined.

(** ** Credentials and subscribers *)

Lemma update_quiet (E : Env) f : respects quiet (update E f).
Proof.
  unfold update, filterNotificationsByUserType, parseStored.
  frame quiet_refl quiet_trans fail ltac:(now split).
Qed.

(** X22: [markAsRead] sends its PUT only with a bearer token.  A resolved
    user with a non-empty token of its own is sent with that token, also
    when it is one of the two users with a built-in token; a resolved user
    with neither sends nothing, and so does a lookup that finds nobody or
    raises.  The request leaves whether or not the store then works. *)
Theorem read_mark_request_credential
        (E : Env) (w : World) (notificationId : string) :
  (forall u token,
      authUser E (tick w) = Ok (Some u) ->
      User.token u = Some token -> token <> "" ->
      requests (exec E (OpMarkRead notificationId) w)
      = requests w ++ [PutRead notificationId token]) /\
  (forall u,
      authUser E (tick w) = Ok (Some u) ->
      truthy (User.token u) = false ->
      User.id u <> "5" -> User.id u <> "21" ->
      requests (exec E (OpMarkRead notificationId) w) = requests w) /\
  (authUser E (tick w) = Ok None \/ (exists e, authUser E (tick w) = Throw e) ->
   requests (exec E (OpMarkRead notificationId) w) = requests w).
Proof.
  assert (Hexec : forall w1,
             snd (try_catch (markAsReadOnAPI E notificationId)
                            (fun _ => ret tt) w) = w1 ->
             requests (exec E (OpMarkRead notificationId) w) = requests w1).
  { intros w1 Hw1. unfold exec, perform. rewrite markAsRead_update. unfold bind.
    destruct (markAsReadOnAPI_guarded E notificationId w) as (v & Hv & _).
    rewrite Hv in Hw1 |- *. cbn in Hw1. subst v.
    apply (update_quiet E _ w1). }
  split; [|split].
  - intros u token Hu Ht Hne.
    erewrite Hexec; [|reflexivity].
    unfold markAsReadOnAPI, try_catch, bind, getCurrentUser. rewrite Hu.
    assert (Hb : bearerToken u = Some token).
    { unfold bearerToken, truthy. rewrite Ht.
      apply String.eqb_neq in Hne. now rewrite Hne. }
    rewrite Hb. unfold makeApiCall.
    now destruct (apiResponse E (tick (bump w))).
  - intros u Hu Ht H5 H21.
    erewrite Hexec; [|reflexivity].
    unfold markAsReadOnAPI, try_catch, bind, getCurrentUser. rewrite Hu.
    assert (Hb : bearerToken u = None).
    { unfold bearerToken. rewrite Ht.
      apply String.eqb_neq in H5, H21. now rewrite H5, H21. }
    now rewrite Hb.
  - intros Hnone. erewrite Hexec; [|reflexivity].
    unfold markAsReadOnAPI, try_catch, bind, getCurrentUser.
    destruct Hnone as [->|[e ->]]; reflexivity.
Qed.

Lemma read_mark_request_credential_witness :
  requests (exec ownerHome (OpMarkRead "2") stocked) = [PutRead "2" "secret"] /\
  requests (exec signedOut (OpMarkRead "2") stocked) = [].
Proof.
  split.
  - destruct (read_mark_request_credential ownerHome stocked "2") as (H & _).
    apply (H owner1 "secret"); [reflexivity | reflexivity | discriminate].
  - destruct (read_mark_request_credential signedOut stocked "2") as (_ & _ & H).
    apply H. now left.
Defined.

(** X23: [subscribe] itself calls nobody and takes no interaction: a new
    listener is not handed the current list.  With a working store a
    [deleteNotification] that follows calls the listeners registered
    before, in their order, and the new one last, all with the same view:
    the stored list without the deleted id, as filtered by the identity
    lookup the delete makes after its read and its write. *)
Theorem subscribe_then_broadcast
        (E : Env) (w : World) (listener : Listener) (notificationId : string) :
  storeWorks E -> parsable w ->
  let w1 := snd (subscribe listener w) in
  let view :=
    filteredView (authUser E (S (S (tick w))))
                 (filter (fun n => negb (Notification.id n =? notificationId)%string)
                         (canonical w)) in
  delivered w1 = delivered w /\
  storage w1 = storage w /\
  tick w1 = tick w /\
  listeners w1 = listeners w ++ [listener] /\
  exists w2,
    deleteNotification E notificationId w1 = (Ok tt, w2) /\
    delivered w2 =
    delivered w ++ map (fun l => (l, view)) (listeners w) ++ [(listener, view)].
Proof.
  intros Hs Hp w1 view. split; [reflexivity|]. split; [reflexivity|].
  split; [reflexivity|]. split; [reflexivity|].
  assert (Hp1 : parsable w1) by exact Hp.
  rewrite deleteNotification_update, (update_runs E _ w1 Hs Hp1).
  eexists. split; [reflexivity|]. cbn.
  now rewrite map_app.
Qed.

Lemma subscribe_then_broadcast_witness :
  let view := [plain "1" review "New Review Received" None None;
               plain "3" message "New Message" None (Some "9")] in
  (exists w2,
      deleteNotification signedOut "2" (snd (subscribe 5%nat (with_listeners [4%nat] mixed)))
      = (Ok tt, w2) /\
      delivered w2 = [(4%nat, view); (5%nat, view)]) /\
  (exists w2,
      deleteNotification ownerHome "1" (snd (subscribe 5%nat (with_listeners [4%nat] mixed)))
      = (Ok tt, w2) /\
      delivered w2 = [(4%nat, [plain "2" message "New Message" None None]);
                      (5%nat, [plain "2" message "New Message" None None])]).
Proof.
  intros view. split.
  - destruct (subscribe_then_broadcast signedOut (with_listeners [4%nat] mixed) 5%nat "2")
      as (_ & _ & _ & _ & w2 & Hrun & Hd);
      [intros k; repeat split | discriminate |].
    exists w2. split; [exact Hrun | exact Hd].
  - destruct (subscribe_then_broadcast ownerHome (with_listeners [4%nat] mixed) 5%nat "1")
      as (_ & _ & _ & _ & w2 & Hrun & Hd);
      [intros k; repeat split | discriminate |].
    exists w2. split; [exact Hrun | exact Hd].
Defined.
